(** * Vietlott crawler: parser, pagination walker and store merge

    A shallow embedding of [src/crawler/vietlott.py] and of the product
    table of [src/config.py].

    - [Py]: the pieces of the Python runtime the crawler relies on
      (exceptions, [str.strip], [str.isdigit], [int], the three regular
      expressions, [strptime]/[strftime], list slicing, the stable sort).
    - [Soup]: the document tree BeautifulSoup hands to the parser and the
      CSS selections the parser makes on it.
    - the two response parsers, [fetch_draw], [crawl] and [update_data],
      over an explicit world (remote site, wall clock, data files).
    - [Fixtures] and [Scenarios]: fragments, mocked remotes and stores
      the properties are tried on.

    Text is modelled over the code points U+0000..U+00FF: a [string] is a
    Python [str] whose characters all lie in that range, an [ascii] being
    the code point. Two library calls are given by their outcome: the
    BeautifulSoup constructor, by the tree it builds or the exception
    it raises, and [pl.read_ndjson], by the lines it reads back or the
    exception it raises on a file without a line. *)

From Stdlib Require Import ZArith Ascii String.
From stdpp Require Import gmap strings list sorting.

Open Scope string_scope.

(* ================================================================== *)
(** ** Python runtime *)
(* ================================================================== *)

Module Py.

(** Exceptions that the modelled code can meet. All of them derive from
    [Exception], so an [except Exception] clause catches each. *)
Inductive exn :=
| ValueError (msg : string)
| TransportError (msg : string)
| UnicodeEncodeError (msg : string)
| ComputeError (msg : string).

(** Result of running a piece of Python: a value, or a raised exception. *)
Inductive Outcome (A : Type) :=
| Ret (a : A)
| Raise (e : exn).
Arguments Ret {A} a.
Arguments Raise {A} e.

Definition bind {A B} (m : Outcome A) (k : A -> Outcome B) : Outcome B :=
  match m with
  | Ret a => k a
  | Raise e => Raise e
  end.

(** [try: body except Exception as e: handler e] *)
Definition try_except {A} (body : Outcome A) (handler : exn -> Outcome A)
  : Outcome A :=
  match body with
  | Ret a => Ret a
  | Raise e => handler e
  end.

(** *** Characters *)

Definition ord (c : ascii) : N := N_of_ascii c.

(** Unicode category Nd: what [\d] matches and what [int] accepts. *)
Definition isdecimal_char (c : ascii) : bool :=
  ((48 <=? ord c) && (ord c <=? 57))%N.

(** Unicode property Numeric_Type in {Decimal, Digit}: what [str.isdigit]
    tests. Below U+0100 it adds the superscripts U+00B2, U+00B3, U+00B9
    to the decimal digits. *)
Definition isdigit_char (c : ascii) : bool :=
  isdecimal_char c
  || (ord c =? 178)%N || (ord c =? 179)%N || (ord c =? 185)%N.

(** Whitespace in the sense of [str.strip] and [str.isspace]. *)
Definition isspace_char (c : ascii) : bool :=
  (((9 <=? ord c) && (ord c <=? 13))
   || ((28 <=? ord c) && (ord c <=? 32))
   || (ord c =? 133) || (ord c =? 160))%N.

(** *** Strings *)

Fixpoint str_all (p : ascii -> bool) (s : string) : bool :=
  match s with
  | "" => true
  | String c r => p c && str_all p r
  end.

Definition nonempty (s : string) : bool :=
  match s with "" => false | String _ _ => true end.

(** [s.isdigit()] *)
Definition isdigit (s : string) : bool :=
  nonempty s && str_all isdigit_char s.

Fixpoint lstrip (s : string) : string :=
  match s with
  | "" => ""
  | String c r => if isspace_char c then lstrip r else s
  end.

Fixpoint rstrip (s : string) : string :=
  match s with
  | "" => ""
  | String c r =>
      match rstrip r with
      | "" => if isspace_char c then "" else String c ""
      | r' => String c r'
      end
  end.

(** [s.strip()] *)
Definition strip (s : string) : string := rstrip (lstrip s).

Definition digit_value (c : ascii) : Z := Z.of_N (ord c) - 48.

Fixpoint decimal_value (acc : Z) (s : string) : Z :=
  match s with
  | "" => acc
  | String c r => decimal_value (10 * acc + digit_value c) r
  end.

(** [sys.get_int_max_str_digits()], CPython's default. *)
Definition int_max_str_digits : nat := 4300.

(** [int(s)] for a text without sign, blank or underscore, which is all
    the parser ever passes (it calls [int] behind [isdigit]). Such a text
    converts when it is a non-empty run of decimal digits no longer than
    the interpreter's limit; otherwise [int] raises [ValueError]. *)
Definition int (s : string) : Outcome Z :=
  if nonempty s && str_all isdecimal_char s then
    if (String.length s <=? int_max_str_digits)%nat then Ret (decimal_value 0 s)
    else Raise (ValueError "Exceeds the limit for integer string conversion")
  else Raise (ValueError "invalid literal for int() with base 10").

(** *** Regular expressions

    [re.search] returns the leftmost match. None of the three patterns
    needs backtracking: each [\d+] is followed by a character that is
    not a digit, so the greedy run is the only candidate. *)

(** Longest prefix of decimal digits, and what follows it. *)
Fixpoint span_digits (s : string) : string * string :=
  match s with
  | "" => ("", "")
  | String c r =>
      if isdecimal_char c then
        let '(d, rest) := span_digits r in (String c d, rest)
      else ("", s)
  end.

(** Match a fixed-length sequence of character classes at the start of
    [s]; returns the matched text and the rest. *)
Fixpoint match_classes (cls : list (ascii -> bool)) (s : string)
  : option (string * string) :=
  match cls with
  | [] => Some ("", s)
  | p :: cls' =>
      match s with
      | "" => None
      | String c r =>
          if p c then
            match match_classes cls' r with
            | Some (m, rest) => Some (String c m, rest)
            | None => None
            end
          else None
      end
  end.

Definition is_char (a : ascii) : ascii -> bool := Ascii.eqb a.

(** [re.search(r"#(\d+)", s)], group 1. *)
Fixpoint search_draw_id (s : string) : option string :=
  match s with
  | "" => None
  | String c r =>
      if is_char "#" c then
        match span_digits r with
        | ("", _) => search_draw_id r
        | (d, _) => Some d
        end
      else search_draw_id r
  end.

Definition date_classes : list (ascii -> bool) :=
  [isdecimal_char; isdecimal_char; is_char "/";
   isdecimal_char; isdecimal_char; is_char "/";
   isdecimal_char; isdecimal_char; isdecimal_char; isdecimal_char].

(** [re.search(r"(\d{2}/\d{2}/\d{4})", s)], group 1. *)
Fixpoint search_date (s : string) : option string :=
  match match_classes date_classes s with
  | Some (m, _) => Some m
  | None =>
      match s with
      | "" => None
      | String _ r => search_date r
      end
  end.

(** The character class of the link pattern: an apostrophe (U+0027) or
    a quotation mark (U+0022). *)
Definition is_quote (c : ascii) : bool :=
  is_char "'" c || is_char (ascii_of_N 34) c.

Definition literal (s : string) : list (ascii -> bool) :=
  is_char <$> list_ascii_of_string s.

(** One attempt of the link pattern at the start of [s]: the literal
    text ClientDrawResult, an opening parenthesis, a quote, [\d+]
    (captured), a quote, a closing parenthesis. *)
Definition match_client_draw_here (s : string) : option string :=
  match match_classes (literal "ClientDrawResult(" ++ [is_quote]) s with
  | None => None
  | Some (_, rest) =>
      match span_digits rest with
      | ("", _) => None
      | (d, rest') =>
          match match_classes [is_quote; is_char ")"] rest' with
          | Some _ => Some d
          | None => None
          end
      end
  end.

(** [re.search] of the link pattern in [s], group 1. *)
Fixpoint search_client_draw (s : string) : option string :=
  match match_client_draw_here s with
  | Some d => Some d
  | None =>
      match s with
      | "" => None
      | String _ r => search_client_draw r
      end
  end.

(** *** Dates *)

Record datetime := { year : Z; month : Z; day : Z }.

Definition is_leap (y : Z) : bool :=
  ((y mod 4 =? 0) && (negb (y mod 100 =? 0) || (y mod 400 =? 0)))%Z.

Definition days_in_month (y m : Z) : Z :=
  (if m =? 2 then (if is_leap y then 29 else 28)
   else if (m =? 4) || (m =? 6) || (m =? 9) || (m =? 11) then 30
   else 31)%Z.

(** [datetime.strptime(s, "%d/%m/%Y")] on a text captured by the date
    pattern, that is of the shape dd/dd/dddd. The day must read 01..31,
    the month 01..12, and the three must name a day of the calendar from
    year 1 on; otherwise [ValueError]. *)
Definition strptime (s : string) : Outcome datetime :=
  match match_classes date_classes s with
  | Some (_, "") =>
      let d := decimal_value 0 (substring 0 2 s) in
      let m := decimal_value 0 (substring 3 2 s) in
      let y := decimal_value 0 (substring 6 4 s) in
      if ((1 <=? d) && (d <=? 31) && (1 <=? m) && (m <=? 12))%Z then
        if (y <? 1)%Z then Raise (ValueError "year 0 is out of range")
        else if (d <=? days_in_month y m)%Z
        then Ret {| year := y; month := m; day := d |}
        else Raise (ValueError "day is out of range for month")
      else Raise (ValueError "time data does not match format")
  | _ => Raise (ValueError "time data does not match format")
  end.

Definition digit_char (n : Z) : ascii := ascii_of_N (Z.to_N (48 + n mod 10)).

Definition zfill2 (n : Z) : string :=
  String (digit_char (n / 10)) (String (digit_char n) "").

Definition zfill4 (n : Z) : string :=
  String (digit_char (n / 1000)) (String (digit_char (n / 100)) (zfill2 n)).

(** The year as [%Y] writes it with the C library of Linux: in decimal,
    without padding. The year of a [datetime] is 1 to 9999. *)
Definition year_text (y : Z) : string :=
  (if y <? 10 then String (digit_char y) ""
   else if y <? 100 then zfill2 y
   else if y <? 1000 then String (digit_char (y / 100)) (zfill2 y)
   else zfill4 y)%Z.

(** [d.strftime("%Y-%m-%d")]: month and day on two digits, the year on
    as many as it has. *)
Definition strftime (d : datetime) : string :=
  year_text (year d) +:+ "-" +:+ zfill2 (month d) +:+ "-" +:+ zfill2 (day d).

(** *** Lists *)

(** [l[:n]] for a Python [int] [n]: a negative [n] counts from the end. *)
Definition slice_to {A} (n : Z) (l : list A) : list A :=
  if (0 <=? n)%Z then take (Z.to_nat n) l
  else take (length l - Z.to_nat (- n)) l.

(** [len(l)] *)
Definition len {A} (l : list A) : Z := Z.of_nat (length l).

(** [range(n)] has [max(0, n)] elements. *)
Definition range_len (n : Z) : nat := Z.to_nat n.

(** [needle in hay] for two strings. *)
Fixpoint contains (needle hay : string) : bool :=
  String.prefix needle hay
  || match hay with
     | "" => false
     | String _ r => contains needle r
     end.

(** [l.sort(key=key)] with string keys. Python's sort is stable, and a
    stable sort has one possible outcome; it is computed here by
    insertion, each element going in front of the first one whose key is
    not smaller. Strings compare by code point. *)
Fixpoint insert_by {A} (key : A -> string) (x : A) (l : list A) : list A :=
  match l with
  | [] => [x]
  | y :: r =>
      if String.leb (key x) (key y) then x :: l
      else y :: insert_by key x r
  end.

Fixpoint sort_by {A} (key : A -> string) (l : list A) : list A :=
  match l with
  | [] => []
  | x :: r => insert_by key x (sort_by key r)
  end.

End Py.

Import Py.

Notation "x <- m ;; k" := (Py.bind m (fun x => k))
  (at level 100, m at next level, right associativity) : stdpp_scope.

(* ================================================================== *)
(** ** Document tree *)
(* ================================================================== *)

Module Soup.

#[local] Set Warnings "-register-all".

(** What BeautifulSoup builds from an HTML fragment: text nodes and
    elements. [classes] is the multi-valued [class] attribute, already
    split; [attrs] holds the other attributes. *)
Inductive Node :=
| Text (s : string)
| Element (tag : string) (classes : list string)
          (attrs : list (string * string)) (children : list Node).

(** A fragment [html_content], given by what
    [BeautifulSoup(html_content, "lxml")] makes of it: the tree it
    builds, or the exception it raises, as on a text that holds a lone
    surrogate and cannot be encoded. A tree stands for a fragment that
    reads as that tree. *)
Inductive Fragment :=
| Markup (soup : Node)
| Unreadable (e : exn).

Coercion Markup : Node >-> Fragment.

(** [BeautifulSoup(html_content, "lxml")] *)
Definition BeautifulSoup (html_content : Fragment) : Outcome Node :=
  match html_content with
  | Markup soup => Ret soup
  | Unreadable e => Raise e
  end.

(** All nodes below [n], in document order. *)
Fixpoint descendants (n : Node) : list Node :=
  match n with
  | Text _ => []
  | Element _ _ _ cs =>
      (fix go (l : list Node) : list Node :=
         match l with
         | [] => []
         | c :: r => c :: descendants c ++ go r
         end) cs
  end.

(** [n.get_text()]: every text below [n], concatenated. *)
Fixpoint get_text (n : Node) : string :=
  match n with
  | Text s => s
  | Element _ _ _ cs =>
      (fix go (l : list Node) : string :=
         match l with
         | [] => ""
         | c :: r => get_text c +:+ go r
         end) cs
  end.

(** The selectors the crawler uses: an optional tag and an optional
    class, as in [h5], [.day_so_ket_qua], [span.bong_tron]. *)
Record Selector := { sel_tag : option string; sel_class : option string }.

Definition matches (sel : Selector) (n : Node) : bool :=
  match n with
  | Text _ => false
  | Element t cl _ _ =>
      match sel_tag sel with
      | Some t' => bool_decide (t = t')
      | None => true
      end
      && match sel_class sel with
         | Some c => bool_decide (c ∈ cl)
         | None => true
         end
  end.

(** [n.select(sel)] *)
Definition select (sel : Selector) (n : Node) : list Node :=
  List.filter (matches sel) (descendants n).

(** [n.select_one(sel)] *)
Definition select_one (sel : Selector) (n : Node) : option Node :=
  head (select sel n).

Fixpoint assoc (k : string) (l : list (string * string)) : option string :=
  match l with
  | [] => None
  | (k', v) :: r => if bool_decide (k' = k) then Some v else assoc k r
  end.

(** [n.get(key, default)] *)
Definition get (n : Node) (key dflt : string) : string :=
  match n with
  | Text _ => dflt
  | Element _ _ attrs _ => default dflt (assoc key attrs)
  end.

End Soup.

Import Soup.

(* ================================================================== *)
(** ** Configuration ([src/config.py]) *)
(* ================================================================== *)

Record LotteryConfig := {
  name : string;
  min_val : Z;
  max_val : Z;
  numbers_to_pick : Z;
  data_file : string;
  url : string;
  sms_code : string;
  result_page_url : string;
  has_bonus : bool;
  product_type : string
}.

Definition ajaxpro (part : string) : string :=
  "https://vietlott.vn/ajaxpro/Vietlott.PlugIn.WebParts." +:+ part
  +:+ ",Vietlott.PlugIn.WebParts.ashx".

Definition result_page (slug : string) : string :=
  "https://vietlott.vn/vi/trung-thuong/ket-qua-trung-thuong/" +:+ slug.

Definition POWER_655_CONFIG : LotteryConfig :=
  {| name := "power_655"; min_val := 1; max_val := 55; numbers_to_pick := 6;
     data_file := "data/power655.jsonl";
     url := ajaxpro "Game655CompareWebPart"; sms_code := "655";
     result_page_url := result_page "655"; has_bonus := true;
     product_type := "power" |}.

Definition POWER_645_CONFIG : LotteryConfig :=
  {| name := "power_645"; min_val := 1; max_val := 45; numbers_to_pick := 6;
     data_file := "data/power645.jsonl";
     url := ajaxpro "Game645CompareWebPart"; sms_code := "645";
     result_page_url := result_page "645"; has_bonus := false;
     product_type := "power" |}.

Definition MAX3D_CONFIG : LotteryConfig :=
  {| name := "max_3d"; min_val := 0; max_val := 999; numbers_to_pick := 20;
     data_file := "data/max3d.jsonl";
     url := ajaxpro "GameMax3DResultDetailWebPart"; sms_code := "3D";
     result_page_url := result_page "max-3d"; has_bonus := false;
     product_type := "max3d" |}.

Definition MAX3D_PRO_CONFIG : LotteryConfig :=
  {| name := "max_3d_pro"; min_val := 0; max_val := 999;
     numbers_to_pick := 20; data_file := "data/max3d_pro.jsonl";
     url := ajaxpro "GameMax3DProResultDetailWebPart"; sms_code := "3DPRO";
     result_page_url := result_page "max-3dpro"; has_bonus := false;
     product_type := "max3d" |}.

Definition LOTTO_535_CONFIG : LotteryConfig :=
  {| name := "lotto_535"; min_val := 1; max_val := 35; numbers_to_pick := 5;
     data_file := "data/lotto535.jsonl";
     url := ajaxpro "Game535ResultDetailWebPart"; sms_code := "535";
     result_page_url := result_page "535"; has_bonus := true;
     product_type := "power" |}.

Definition KENO_CONFIG : LotteryConfig :=
  {| name := "keno"; min_val := 1; max_val := 80; numbers_to_pick := 20;
     data_file := "data/keno.jsonl";
     url := ajaxpro "GameKenoResultDetailWebPart"; sms_code := "KENO";
     result_page_url := result_page "keno"; has_bonus := false;
     product_type := "keno" |}.

Definition PRODUCTS : gmap string LotteryConfig :=
  list_to_map
    [("655", POWER_655_CONFIG); ("645", POWER_645_CONFIG);
     ("3d", MAX3D_CONFIG); ("3dpro", MAX3D_PRO_CONFIG);
     ("535", LOTTO_535_CONFIG); ("keno", KENO_CONFIG)].

(* ================================================================== *)
(** ** Draw records *)
(* ================================================================== *)

(** The [result] list of a draw: integers for the numeric shape, digit
    strings for the triplet shape. *)
Inductive DrawResult :=
| Numbers (ns : list Z)
| Triplets (ts : list string).

(** The dict a parser returns, keys [date], [id], [result],
    [process_time], [prev_draw_id]. *)
Record ParsedDraw := {
  pd_date : string;
  pd_id : string;
  pd_result : DrawResult;
  pd_process_time : string;
  pd_prev_draw_id : option string
}.

(** The same dict once [prev_draw_id] has been popped: one line of the
    store. *)
Record DrawRecord := {
  date : string;
  id : string;
  result : DrawResult;
  process_time : string
}.

(** [result.pop("prev_draw_id", None)]: the popped value and what is left
    of the dict. *)
Definition pop_prev_draw_id (r : ParsedDraw) : option string * DrawRecord :=
  (pd_prev_draw_id r,
   {| date := pd_date r; id := pd_id r; result := pd_result r;
      process_time := pd_process_time r |}).

(* ================================================================== *)
(** ** Response parser *)
(* ================================================================== *)

Definition sel_h5 : Selector :=
  {| sel_tag := Some "h5"; sel_class := None |}.
Definition sel_day_so_ket_qua_v2 : Selector :=
  {| sel_tag := None; sel_class := Some "day_so_ket_qua_v2" |}.
Definition sel_day_so_ket_qua : Selector :=
  {| sel_tag := None; sel_class := Some "day_so_ket_qua" |}.
Definition sel_span : Selector :=
  {| sel_tag := Some "span"; sel_class := None |}.
Definition sel_span_bong_tron : Selector :=
  {| sel_tag := Some "span"; sel_class := Some "bong_tron" |}.
Definition sel_btn_chuyendulieu_left : Selector :=
  {| sel_tag := Some "a"; sel_class := Some "btn_chuyendulieu_left" |}.

(** Header extraction, the same statements in both parsers (lines
    104-124 and 189-209): the draw id and the date in ISO form, [None]
    where the parser returns [None], an exception where [strptime]
    raises. *)
Definition parse_header (soup : Node) : Outcome (option (string * string)) :=
  match select_one sel_h5 soup with
  | None => Ret None
  | Some h5 =>
      let h5_text := get_text h5 in
      match search_draw_id h5_text with
      | None => Ret None
      | Some draw_id =>
          match search_date h5_text with
          | None => Ret None
          | Some date_str =>
              d <- strptime date_str ;;
              Ret (Some (draw_id, strftime d))
          end
      end
  end.

(** Previous draw id from the navigation link (lines 150-156 and
    230-236). *)
Definition find_prev_draw_id (soup : Node) : option string :=
  match select_one sel_btn_chuyendulieu_left soup with
  | None => None
  | Some prev_link => search_client_draw (get prev_link "href" "")
  end.

(** The loop of lines 136-140: every span whose stripped text passes
    [isdigit] is converted with [int]. *)
Fixpoint collect_numbers (spans : list Node) : Outcome (list Z) :=
  match spans with
  | [] => Ret []
  | span :: rest =>
      let text := strip (get_text span) in
      if isdigit text then
        n <- int text ;;
        ns <- collect_numbers rest ;;
        Ret (n :: ns)
      else collect_numbers rest
  end.

(** The result container (lines 127-129): the first element of class
    [day_so_ket_qua_v2], else the first of class [day_so_ket_qua]. *)
Definition result_div (soup : Node) : option Node :=
  match select_one sel_day_so_ket_qua_v2 soup with
  | Some d => Some d
  | None => select_one sel_day_so_ket_qua soup
  end.

(** Body of the [try] block of [_parse_power_response]. [now] is the
    reading of [datetime.now().isoformat()]. *)
Definition parse_power_body (config : LotteryConfig) (now : string)
    (soup : Node) : Outcome (option ParsedDraw) :=
  hdr <- parse_header soup ;;
  match hdr with
  | None => Ret None
  | Some (draw_id, date_formatted) =>
      match result_div soup with
      | None => Ret None
      | Some result_div =>
          numbers <- collect_numbers (select sel_span result_div) ;;
          if (len numbers <? numbers_to_pick config)%Z then Ret None
          else
            let result_numbers := slice_to (numbers_to_pick config) numbers in
            let prev_draw_id := find_prev_draw_id soup in
            Ret (Some {| pd_date := date_formatted;
                         pd_id := draw_id;
                         pd_result := Numbers result_numbers;
                         pd_process_time := now;
                         pd_prev_draw_id := prev_draw_id |})
      end
  end.

(** The constructor call of line 99 comes before the [try]. *)
Definition _parse_power_response (config : LotteryConfig) (now : string)
    (html_content : Fragment) : Outcome (option ParsedDraw) :=
  soup <- BeautifulSoup html_content ;;
  try_except (parse_power_body config now soup) (fun _ => Ret None).

(** The stripped texts of the [span.bong_tron] elements of one result
    div. *)
Definition digits_of (div : Node) : list string :=
  (fun span => strip (get_text span)) <$> select sel_span_bong_tron div.

(** Lines 217-223 for one div: the number it contributes, if any. *)
Definition triplet_of (div : Node) : option string :=
  let digits := digits_of div in
  match digits with
  | [] => None
  | _ :: _ =>
      if forallb isdigit digits && (length digits =? 3)%nat
      then Some (String.concat "" digits)
      else None
  end.

(** Body of the [try] block of [_parse_max3d_response]. *)
Definition parse_max3d_body (now : string) (soup : Node)
  : Outcome (option ParsedDraw) :=
  hdr <- parse_header soup ;;
  match hdr with
  | None => Ret None
  | Some (draw_id, date_formatted) =>
      let result_divs := select sel_day_so_ket_qua_v2 soup in
      let numbers := omap triplet_of result_divs in
      if (len numbers <? 2)%Z then Ret None
      else
        let prev_draw_id := find_prev_draw_id soup in
        Ret (Some {| pd_date := date_formatted;
                     pd_id := draw_id;
                     pd_result := Triplets numbers;
                     pd_process_time := now;
                     pd_prev_draw_id := prev_draw_id |})
  end.

(** The constructor call of line 185 comes before the [try]. *)
Definition _parse_max3d_response (now : string) (html_content : Fragment)
  : Outcome (option ParsedDraw) :=
  soup <- BeautifulSoup html_content ;;
  try_except (parse_max3d_body now soup) (fun _ => Ret None).

Definition _parse_response (config : LotteryConfig) (now : string)
    (html_content : Fragment) : Outcome (option ParsedDraw) :=
  if bool_decide (product_type config = "max3d")
  then _parse_max3d_response now html_content
  else _parse_power_response config now html_content.

(* ================================================================== *)
(** ** The world outside the program *)
(* ================================================================== *)

(** JSON scalars of the request envelope. *)
Inductive Json :=
| JNull
| JBool (b : bool)
| JStr (s : string).

(** The dict [_build_request_body] returns. *)
Record RequestBody := {
  ORenderInfo : list (string * Json);
  Key : string;
  DrawId : string
}.

(** One POST: where it goes and what it carries. *)
Record Request := {
  req_endpoint : string;
  req_body : RequestBody
}.

(** What a POST comes to inside the [try] block of [fetch_draw], up to
    the point where the fragment is handed to the parser. *)
Inductive Response :=
| Failed (e : exn)
    (** the POST, [raise_for_status] or [response.json()] raised, or the
        fragment is one the parser raises on *)
| NoContent
    (** the field [RetExtraParam1] is missing or empty *)
| Html (soup : Node)
    (** the fragment, as BeautifulSoup reads it *).

(** The remote site answers a request as a function of the requests it
    has served before; the clock gives one reading per request; [files]
    maps the path of a data file that exists to its lines, as written.
    [sent] and [writes] log the requests issued and the files opened for
    writing. [polars_results] is the [result] column polars reads from a
    file of given lines: polars fits the lists of a column to one type,
    and a list does not always come back as it was written (an integer
    beyond 64 bits comes back as a string). *)
Record World := {
  site : list Request -> Request -> Response;
  clock : nat -> string;
  sent : list Request;
  files : gmap string (list DrawRecord);
  writes : list string;
  polars_results : list DrawRecord -> list DrawResult
}.

(** Effectful code: it reads and changes the world, and returns or
    raises. *)
Definition Eff (A : Type) : Type := World -> Outcome A * World.

Definition ret {A} (a : A) : Eff A := fun w => (Ret a, w).
Definition raise {A} (e : exn) : Eff A := fun w => (Raise e, w).

Definition ebind {A B} (m : Eff A) (k : A -> Eff B) : Eff B :=
  fun w =>
    match m w with
    | (Ret a, w') => k a w'
    | (Raise e, w') => (Raise e, w')
    end.

Notation "x <~ m ;; k" := (ebind m (fun x => k))
  (at level 100, m at next level, right associativity) : stdpp_scope.

(** The world once the requests [reqs] have gone out. *)
Definition add_sent (reqs : list Request) (w : World) : World :=
  {| site := site w; clock := clock w; sent := sent w ++ reqs;
     files := files w; writes := writes w;
     polars_results := polars_results w |}.

(** [client.post(...)] followed by the decoding of the reply. *)
Definition post (req : Request) : Eff Response :=
  fun w => (Ret (site w (sent w) req), add_sent [req] w).

(** [datetime.now().isoformat()] while the reply to the latest request is
    being parsed. *)
Definition now (w : World) : string := clock w (length (sent w)).

(** The dicts of [pl.read_ndjson(path).to_dicts()] for a file of the
    given lines: one per line, in order, with the [date], [id] and
    [process_time] written and the [result] polars reads. *)
Definition reread (w : World) (lines : list DrawRecord) : list DrawRecord :=
  imap (fun i r =>
          {| date := date r; id := id r;
             result := default (result r) (polars_results w lines !! i);
             process_time := process_time r |})
       lines.

(** [path.exists()] and, for a file that exists, what [pl.read_ndjson]
    reads from it. A file without a line has no column: polars raises
    on it. *)
Definition read_store (path : string) : Eff (option (list DrawRecord)) :=
  fun w =>
    match files w !! path with
    | None => (Ret None, w)
    | Some [] => (Raise (ComputeError "empty file"), w)
    | Some lines => (Ret (Some (reread w lines)), w)
    end.

(** [open(path, "w")] and one [json.dumps] line per record. *)
Definition write_store (path : string) (lines : list DrawRecord) : Eff unit :=
  fun w =>
    (Ret tt,
     {| site := site w; clock := clock w; sent := sent w;
        files := <[path := lines]> (files w);
        writes := writes w ++ [path];
        polars_results := polars_results w |}).

(* ================================================================== *)
(** ** Crawler *)
(* ================================================================== *)

Definition ENDPOINTS : gmap string string :=
  list_to_map
    [("645", ajaxpro "Game645ResultDetailWebPart");
     ("655", ajaxpro "Game655ResultDetailWebPart");
     ("3D", ajaxpro "GameMax3DResultDetailWebPart");
     ("3DPRO", ajaxpro "GameMax3DProResultDetailWebPart");
     ("535", ajaxpro "Game535ResultDetailWebPart");
     ("KENO", ajaxpro "GameKenoResultDetailWebPart")].

Record VietlottCrawler := {
  config : LotteryConfig;
  endpoint : string;
  key : string
}.

(** [VietlottCrawler.__init__] *)
Definition new_crawler (config : LotteryConfig) : VietlottCrawler :=
  {| config := config;
     endpoint :=
       if contains "ResultDetail" (url config) then url config
       else default (ajaxpro "Game645ResultDetailWebPart")
                    (ENDPOINTS !! sms_code config);
     key := "23bbd667" |}.

Definition _build_request_body (self : VietlottCrawler) (draw_id : string)
  : RequestBody :=
  let orender_info :=
    [("SiteId", JStr "main.frontend.vi"); ("SiteAlias", JStr "main.vi");
     ("UserSessionId", JStr ""); ("SiteLang", JStr "vi");
     ("IsPageDesign", JBool false); ("ExtraParam1", JStr "");
     ("ExtraParam2", JStr ""); ("ExtraParam3", JStr "");
     ("SiteURL", JStr ""); ("WebPage", JNull);
     ("SiteName", JStr "Vietlott"); ("OrgPageAlias", JNull);
     ("PageAlias", JNull); ("RefKey", JNull); ("FullPageAlias", JNull)] in
  {| ORenderInfo := orender_info; Key := key self; DrawId := draw_id |}.

(** The request [fetch_draw] posts for [draw_id]. *)
Definition request_for (self : VietlottCrawler) (draw_id : string)
  : Request :=
  let body := _build_request_body self draw_id in
  {| req_endpoint := endpoint self; req_body := body |}.

(** Everything after the request is built sits in a [try] whose handler
    returns [None]: the POST, the decoding of the reply, the parse. *)
Definition fetch_draw (self : VietlottCrawler) (draw_id : string)
  : Eff (option ParsedDraw) :=
  response <~ post (request_for self draw_id) ;;
  fun w =>
    (try_except
       match response with
       | Failed e => Raise e
       | NoContent => Ret None
       | Html soup => _parse_response (config self) (now w) soup
       end
       (fun _ => Ret None),
     w).

Arguments fetch_draw : simpl never.

(** The [for] loop of [crawl], [n] iterations left, with its loop state
    [draw_id] and [all_data]. Every [break] returns [all_data]. *)
Fixpoint crawl_loop (self : VietlottCrawler) (existing_ids : gset string)
    (n : nat) (draw_id : string) (all_data : list DrawRecord)
  : Eff (list DrawRecord) :=
  match n with
  | O => ret all_data
  | S n' =>
      result <~ fetch_draw self draw_id ;;
      match result with
      | None => ret all_data
      | Some result =>
          let current_id := pd_id result in
          if bool_decide (current_id ∈ existing_ids) then ret all_data
          else
            let '(prev_draw_id, record) := pop_prev_draw_id result in
            let all_data := (all_data ++ [record])%list in
            match prev_draw_id with
            | Some prev =>
                if nonempty prev
                then crawl_loop self existing_ids n' prev all_data
                else ret all_data
            | None => ret all_data
            end
      end
  end.

(** [crawl]: start with the latest draw (the empty draw id) and an empty
    list, run the loop [range(max_records)] times at most. *)
Definition crawl (self : VietlottCrawler) (max_records : Z)
    (existing_ids : option (gset string)) : Eff (list DrawRecord) :=
  let existing_ids := default ∅ existing_ids in
  crawl_loop self existing_ids (range_len max_records) "" [].

(* ================================================================== *)
(** ** Store *)
(* ================================================================== *)

(** [set(existing_df["id"].to_list())] *)
Definition ids_of (records : list DrawRecord) : gset string :=
  list_to_set (id <$> records).

(** [[r for r in new_data if r["id"] not in existing_ids]] *)
Definition not_known (existing_ids : gset string) (new_data : list DrawRecord)
  : list DrawRecord :=
  List.filter (fun r => negb (bool_decide (id r ∈ existing_ids))) new_data.

(** [update_data]. The world tracks neither the HTTP client, which the
    [finally] clause closes, nor directories, which [mkdir] creates
    before the file is opened. *)
Definition update_data (product : string) (pages : Z) : Eff Z :=
  match PRODUCTS !! product with
  | None =>
      raise (ValueError ("Unknown product: " +:+ product
                         +:+ ". Use '655' or '645'."))
  | Some config =>
      stored <~ read_store (data_file config) ;;
      let existing_data := default [] stored in
      let existing_ids := ids_of existing_data in
      let crawler := new_crawler config in
      new_data <~ crawl crawler (pages * 10) (Some existing_ids) ;;
      match new_data with
      | [] => ret 0%Z
      | _ :: _ =>
          let new_records := not_known existing_ids new_data in
          match new_records with
          | [] => ret 0%Z
          | _ :: _ =>
              let all_data :=
                sort_by date (existing_data ++ new_records)%list in
              _ <~ write_store (data_file config) all_data ;;
              ret (len new_records)
          end
      end
  end.

(* ================================================================== *)
(** ** Fixtures *)
(* ================================================================== *)

Module Fixtures.

Definition span (classes : list string) (text : string) : Node :=
  Element "span" classes [] [Text text].

Definition header (draw_id day : string) : Node :=
  Element "h5" [] []
    [Text "Ky quay thuong "; Element "b" [] [] [Text ("#" +:+ draw_id)];
     Text " ngay "; Element "b" [] [] [Text day]].

Definition prev_link (prev : option string) : list Node :=
  match prev with
  | Some p =>
      [Element "a" ["btn_chuyendulieu_left"]
         [("href", "javascript:ClientDrawResult('" +:+ p +:+ "');")] []]
  | None => []
  end.

(** A numeric-draw fragment: header, one result div with a ball per
    token, and the link to the previous draw when there is one. *)
Definition power_page (draw_id day : string) (tokens : list string)
    (prev : option string) : Node :=
  Element "[document]" [] []
    ([header draw_id day;
      Element "div" ["day_so_ket_qua_v2"] [] (span ["bong_tron"] <$> tokens)]
     ++ prev_link prev).

(** A digit-triplet fragment: one result div per group. *)
Definition max3d_page (draw_id day : string) (groups : list (list string))
    (prev : option string) : Node :=
  Element "[document]" [] []
    (header draw_id day
     :: ((fun g => Element "div" ["day_so_ket_qua_v2"] []
                     (span ["bong_tron"] <$> g)) <$> groups)
     ++ prev_link prev).

(** A fragment the constructor raises on: a text with a lone surrogate
    (U+D800), which cannot be encoded. *)
Definition cannot_encode : exn :=
  UnicodeEncodeError "'utf-8' codec can't encode character '\ud800'".

Definition lone_surrogate : Fragment := Unreadable cannot_encode.

Definition six : list string := ["05"; "12"; "23"; "34"; "45"; "50"].

(** The six main numbers followed by the bonus ball. *)
Definition seven : list string := (six ++ ["07"])%list.

(** A remote without memory: the reply depends on the draw id asked for
    only. *)
Definition static_site (pages : string -> Response)
  : list Request -> Request -> Response :=
  fun _ req => pages (DrawId (req_body req)).

(** A world at the start of a session. Its stores hold small integers
    or digit strings, which polars reads back as they were written. *)
Definition world (site : list Request -> Request -> Response)
    (files : gmap string (list DrawRecord)) : World :=
  {| site := site; clock := fun _ => "2026-01-15T08:00:00"; sent := [];
     files := files; writes := [];
     polars_results := fun lines => result <$> lines |}.

Definition stored (day draw_id : string) : DrawRecord :=
  {| date := day; id := draw_id; result := Numbers [5; 12; 23; 34; 45; 50]%Z;
     process_time := "2026-01-01T00:00:00" |}.

End Fixtures.

(* ================================================================== *)
(** ** Notions the properties are stated with *)
(* ================================================================== *)

(** The stripped text of every span of a result container. *)
Definition span_texts (div : Node) : list string :=
  (fun span => strip (get_text span)) <$> select sel_span div.

(** Its whole-number tokens: the texts the parser keeps. *)
Definition whole_number_tokens (div : Node) : list string :=
  List.filter isdigit (span_texts div).

(** A token [int] converts: decimal digits only, and no more of them
    than the interpreter allows. *)
Definition decimal_token (t : string) : bool :=
  str_all isdecimal_char t
  && (String.length t <=? int_max_str_digits)%nat.

(** The reply to [draw_id], parsed: what [fetch_draw] returns in [w]. *)
Definition fetched (self : VietlottCrawler) (draw_id : string) (w : World)
  : Outcome (option ParsedDraw) :=
  try_except
    match site w (sent w) (request_for self draw_id) with
    | Failed e => Raise e
    | NoContent => Ret None
    | Html soup =>
        _parse_response (config self)
          (now (add_sent [request_for self draw_id] w)) soup
    end
    (fun _ => Ret None).

(** The new draw the first iteration of the loop appends, if any. *)
Definition first_new (self : VietlottCrawler) (existing_ids : gset string)
    (n : nat) (draw_id : string) (w : World) : option DrawRecord :=
  match n with
  | O => None
  | S _ =>
      match fetched self draw_id w with
      | Ret (Some r) =>
          if bool_decide (pd_id r ∈ existing_ids) then None
          else Some (pop_prev_draw_id r).2
      | _ => None
      end
  end.

(** [m] draws are available from [draw_id] on, in an unbroken backward
    chain: each fetch yields a draw that is not known yet, and each draw
    but the last links to the next. *)
Fixpoint unbroken_chain (self : VietlottCrawler) (existing_ids : gset string)
    (m : nat) (draw_id : string) (w : World) : bool :=
  match m with
  | O => true
  | S k =>
      match fetch_draw self draw_id w with
      | (Ret (Some r), w1) =>
          negb (bool_decide (pd_id r ∈ existing_ids))
          && match k with
             | O => true
             | S _ =>
                 match pd_prev_draw_id r with
                 | Some prev =>
                     nonempty prev
                     && unbroken_chain self existing_ids k prev w1
                 | None => false
                 end
             end
      | _ => false
      end
  end.

(** The draw ids of the requests, in the order they went out. *)
Definition draw_ids (reqs : list Request) : list string :=
  (fun req => DrawId (req_body req)) <$> reqs.

(** The lines of the store of [config]; none when the file is absent. *)
Definition store_lines (config : LotteryConfig) (w : World)
  : list DrawRecord :=
  default [] (files w !! data_file config).

(** Ascending by key, ties allowed, in the order of [str]; and the same
    on the [date] field. *)
Definition key_le {A} (key : A -> string) (a b : A) : Prop :=
  String.leb (key a) (key b) = true.

Definition date_le : DrawRecord -> DrawRecord -> Prop := key_le date.

(** Strictly ascending by date. *)
Definition date_lt (a b : DrawRecord) : Prop :=
  String.ltb (date a) (date b) = true.

(** The remote has no memory: its reply to a request is the same
    whatever it served before. *)
Definition unchanging (w : World) : Prop :=
  forall served served' req, site w served req = site w served' req.

(** The id of the record a parse or a fetch came to, if it came to
    one. *)
Definition parsed_id (o : Outcome (option ParsedDraw)) : option string :=
  match o with
  | Ret (Some r) => Some (pd_id r)
  | _ => None
  end.

(** A sub-element that holds a single digit. *)
Definition single_digit (t : string) : bool :=
  isdigit t && (String.length t =? 1)%nat.

(** A complete triplet: a result div with exactly three sub-elements,
    each holding a single digit. *)
Definition complete_triplet (div : Node) : bool :=
  (length (digits_of div) =? 3)%nat && forallb single_digit (digits_of div).

(** A draw id as the patterns capture it: a non-empty run of decimal
    digits. *)
Definition is_draw_id (s : string) : bool :=
  nonempty s && str_all isdecimal_char s.

(** The text dd/mm/yyyy rewritten as yyyy-mm-dd, digit for digit. *)
Definition iso_of (dmy : string) : string :=
  substring 6 4 dmy +:+ "-" +:+ substring 3 2 dmy +:+ "-"
  +:+ substring 0 2 dmy.

Definition iso_classes : list (ascii -> bool) :=
  [isdecimal_char; isdecimal_char; isdecimal_char; isdecimal_char;
   is_char "-"; isdecimal_char; isdecimal_char; is_char "-";
   isdecimal_char; isdecimal_char].

(** A text of the shape dddd-dd-dd and nothing more. *)
Definition is_iso_date (s : string) : bool :=
  match match_classes iso_classes s with
  | Some (_, "") => true
  | _ => false
  end.

(** A day of the calendar as one number, year first: days compare as
    these numbers do. *)
Definition day_number (d : datetime) : Z :=
  (year d * 10000 + month d * 100 + day d)%Z.

(** A day [strptime] can return: year 1 to 9999, month 1 to 12, day 1 to
    the last of the month. *)
Definition calendar_day (d : datetime) : bool :=
  ((1 <=? year d) && (year d <=? 9999) && (1 <=? month d) && (month d <=? 12)
   && (1 <=? day d) && (day d <=? days_in_month (year d) (month d)))%Z.

(** The day an ISO text names, as one number: year, month and day read
    off their columns. *)
Definition iso_day_number (s : string) : Z :=
  (decimal_value 0 (substring 0 4 s) * 10000
   + decimal_value 0 (substring 5 2 s) * 100
   + decimal_value 0 (substring 8 2 s))%Z.

(* ================================================================== *)
(** ** Command-line driver ([update_data.py]) *)
(* ================================================================== *)

(** [try: body except Exception as e: handler e], for effectful code:
    the handler runs in the world the body left. *)
Definition try_eff {A} (body : Eff A) (handler : exn -> Eff A) : Eff A :=
  fun w =>
    match body w with
    | (Ret a, w') => (Ret a, w')
    | (Raise e, w') => handler e w'
    end.

(** The line [main] logs once a product has been dealt with. *)
Inductive Logged :=
| Added (name : string) (new_records : Z)
| UpToDate (name : string)
| FailedToUpdate (name : string) (e : exn).

(** The [for] loop of [main]. The world has no log: the lines logged
    after each update are returned, in order. *)
Fixpoint main_loop (products : list string) : Eff (list Logged) :=
  match products with
  | [] => ret []
  | product :: rest =>
      match PRODUCTS !! product with
      | None => main_loop rest
      | Some config =>
          line <~ try_eff
                    (new_records <~ update_data product 5 ;;
                     ret (if (0 <? new_records)%Z
                          then Added (name config) new_records
                          else UpToDate (name config)))
                    (fun e => ret (FailedToUpdate (name config) e)) ;;
          lines <~ main_loop rest ;;
          ret (line :: lines)
      end
  end.

Definition main : Eff (list Logged) :=
  let products := ["655"; "645"; "3d"; "3dpro"; "535"] in
  main_loop products.

(** The store of [config] is up to date in [w]: the latest draw of the
    remote, if the remote shows one, is in the store. *)
Definition settled (config : LotteryConfig) (w : World) : Prop :=
  match parsed_id (fetched (new_crawler config) "" w) with
  | Some latest => latest ∈ ids_of (store_lines config w)
  | None => True
  end.

(** The product a logged line is about. *)
Definition logged_name (line : Logged) : string :=
  match line with
  | Added name _ => name
  | UpToDate name => name
  | FailedToUpdate name _ => name
  end.

(** The configurations of the keys of a list that are in the table, in
    the order of the list. *)
Definition known_products (products : list string) : list LotteryConfig :=
  omap (fun product => PRODUCTS !! product) products.

(** [m] new draws can be fetched from [draw_id] on, each linking to the
    next, and the fetch after them stops the walker: it fails, or yields
    no record, or yields a draw that is known. *)
Fixpoint chain_then_stop (self : VietlottCrawler) (existing_ids : gset string)
    (m : nat) (draw_id : string) (w : World) : bool :=
  match fetch_draw self draw_id w with
  | (Ret (Some r), w1) =>
      match m with
      | O => bool_decide (pd_id r ∈ existing_ids)
      | S k =>
          negb (bool_decide (pd_id r ∈ existing_ids))
          && match pd_prev_draw_id r with
             | Some prev =>
                 nonempty prev
                 && chain_then_stop self existing_ids k prev w1
             | None => false
             end
      end
  | _ => match m with O => true | S _ => false end
  end.

(** The world once [lines] have been written to the store of
    [config]. *)
Definition store_written (config : LotteryConfig) (lines : list DrawRecord)
    (w : World) : World :=
  (write_store (data_file config) lines w).2.

(** The store of [config] can be read: its file is absent, or holds a
    line. *)
Definition readable (config : LotteryConfig) (w : World) : Prop :=
  files w !! data_file config <> Some [].

(** What [update_data] has in [existing_data]: the lines of the store as
    polars reads them. *)
Definition existing_data (config : LotteryConfig) (w : World)
  : list DrawRecord :=
  reread w (store_lines config w).

(** Polars reads the lines of the store of [config] back as they were
    written, result lists included. *)
Definition reads_unchanged (config : LotteryConfig) (w : World) : Prop :=
  reread w (store_lines config w) = store_lines config w.

(** The exception [update_data] meets on a store without a line. *)
Definition empty_store_error : exn := ComputeError "empty file".

(** A text without its leading zeros. *)
Fixpoint lstrip_zeros (s : string) : string :=
  match s with
  | "" => ""
  | String c rest => if is_char "0" c then lstrip_zeros rest else s
  end.

(** The text dd/mm/yyyy as [strptime] and [strftime] turn it into a
    date: the year without its leading zeros, then -mm-dd. *)
Definition date_of (dmy : string) : string :=
  lstrip_zeros (substring 6 4 dmy) +:+ "-" +:+ substring 3 2 dmy +:+ "-"
  +:+ substring 0 2 dmy.

(** The year a text dd/mm/yyyy names. *)
Definition dmy_year (dmy : string) : Z := decimal_value 0 (substring 6 4 dmy).

(** The date text of the header of a fragment: the first dd/mm/yyyy of
    the text of its first h5. *)
Definition header_dmy (soup : Node) : option string :=
  match select_one sel_h5 soup with
  | Some h5 => search_date (get_text h5)
  | None => None
  end.

(** What names a line of the store: its date and its id. *)
Definition line_key (r : DrawRecord) : string * string := (date r, id r).

(** The line [main] logs for a product, from what [update_data] came
    to. *)
Definition logged_line (config : LotteryConfig) (res : Outcome Z) : Logged :=
  match res with
  | Ret new_records =>
      if (0 <? new_records)%Z then Added (name config) new_records
      else UpToDate (name config)
  | Raise e => FailedToUpdate (name config) e
  end.

(** The file at [path] exists and holds no line. *)
Definition empty_file (w : World) (path : string) : bool :=
  match files w !! path with
  | Some [] => true
  | _ => false
  end.

(** The line a run of [main] logs for a product whose store has nothing
    to gain: a failure when the store is a file without a line, and up
    to date otherwise. *)
Definition second_run_line (w : World) (config : LotteryConfig) : Logged :=
  if empty_file w (data_file config)
  then FailedToUpdate (name config) empty_store_error
  else UpToDate (name config).

(** Ascending by the day the date names, read off the columns of
    yyyy-mm-dd; ties allowed. *)
Definition day_le (a b : DrawRecord) : Prop :=
  (iso_day_number (date a) <= iso_day_number (date b))%Z.

(* ================================================================== *)
(** ** Scenarios *)
(* ================================================================== *)

Module Scenarios.
Import Fixtures.

(** A remote that serves the pages of a table, keyed by the draw id
    asked for. *)
Fixpoint lookup_page (table : list (string * Node)) (draw_id : string)
  : Response :=
  match table with
  | [] => NoContent
  | (k, page) :: rest =>
      if bool_decide (k = draw_id) then Html page
      else lookup_page rest draw_id
  end.

(** Draws 98 to 101 of Power 6/55; 101 is the latest, 98 has no link. *)
Definition draws_98_101 : list (string * Node) :=
  [("", power_page "101" "15/01/2026" six (Some "100"));
   ("100", power_page "100" "13/01/2026" six (Some "99"));
   ("99", power_page "99" "11/01/2026" six (Some "98"));
   ("98", power_page "98" "09/01/2026" six None)].

Definition store_98_100 : gmap string (list DrawRecord) :=
  {[ "data/power655.jsonl" :=
       [stored "2026-01-09" "98"; stored "2026-01-11" "99";
        stored "2026-01-13" "100"] ]}.

(** Scenario B: the store holds 98, 99 and 100; the latest draw is 101. *)
Definition scenario_B : World :=
  world (static_site (lookup_page draws_98_101)) store_98_100.

(** Scenario C: five chained draws, 105 down to 101, and an empty
    store. *)
Definition draws_101_105 : list (string * Node) :=
  [("", power_page "105" "23/01/2026" six (Some "104"));
   ("104", power_page "104" "21/01/2026" six (Some "103"));
   ("103", power_page "103" "19/01/2026" six (Some "102"));
   ("102", power_page "102" "17/01/2026" six (Some "101"));
   ("101", power_page "101" "15/01/2026" six None)].

Definition scenario_C : World :=
  world (static_site (lookup_page draws_101_105)) ∅.

(** Two Keno draws of the same day, and no store yet. *)
Definition twenty : list string :=
  ["01"; "04"; "09"; "12"; "17"; "21"; "25"; "28"; "33"; "36";
   "41"; "47"; "52"; "55"; "60"; "63"; "68"; "71"; "76"; "80"].

Definition keno_same_day : list (string * Node) :=
  [("", power_page "0200002" "15/01/2026" twenty (Some "0200001"));
   ("0200001", power_page "0200001" "15/01/2026" twenty None)].

Definition scenario_keno : World :=
  world (static_site (lookup_page keno_same_day)) ∅.

(** The store holds 98, 99 and 100; the latest draw is 101, and its link
    to the previous draw names 101 itself. *)
Definition draws_self_link : list (string * Node) :=
  [("", power_page "101" "15/01/2026" six (Some "101"));
   ("101", power_page "101" "15/01/2026" six (Some "101"))].

Definition scenario_self_link : World :=
  world (static_site (lookup_page draws_self_link)) store_98_100.

(** The store holds 98; the remote shows 101 and 100, and fails on
    99. *)
Definition draws_100_101 : list (string * Node) :=
  [("", power_page "101" "15/01/2026" six (Some "100"));
   ("100", power_page "100" "13/01/2026" six (Some "99"))].

Definition scenario_gap : World :=
  world (static_site (lookup_page draws_100_101))
        {[ "data/power655.jsonl" := [stored "2026-01-09" "98"] ]}.

(** A remote that is down. *)
Definition scenario_down : World :=
  world (fun _ _ => Failed (TransportError "503")) store_98_100.

(** The store holds draw 98, of 9 January 2026; the remote shows one
    draw, 99, whose header is dated 1 January of the year 999. *)
Definition draw_of_year_999 : list (string * Node) :=
  [("", power_page "99" "01/01/0999" six None)].

Definition scenario_year_999 : World :=
  world (static_site (lookup_page draw_of_year_999))
        {[ "data/power655.jsonl" := [stored "2026-01-09" "98"] ]}.

End Scenarios.

(* ================================================================== *)
(** ** What leaves the parser *)
(* ================================================================== *)

Lemma try_except_none {A} (body : Outcome (option A)) :
  exists r, try_except body (fun _ => Ret None) = Ret r.
Proof. destruct body as [r|e]; simpl; eauto. Qed.

(** The [try] matters: the body itself raises on a date that is not on
    the calendar, and on a token that [isdigit] accepts and [int] does
    not. *)
Example parse_power_body_raises_date :
  parse_power_body POWER_655_CONFIG "T"
    (Fixtures.power_page "01458" "31/02/2026" Fixtures.six None)
  = Raise (ValueError "day is out of range for month").
Proof. reflexivity. Qed.

Example parse_power_response_unparseable_date :
  _parse_power_response POWER_655_CONFIG "T"
    (Fixtures.power_page "01458" "31/02/2026" Fixtures.six None)
  = Ret None.
Proof. reflexivity. Qed.

Example parse_power_body_raises_int :
  parse_power_body POWER_655_CONFIG "T"
    (Fixtures.power_page "01458" "14/01/2026"
       (String (ascii_of_N 178) "" :: Fixtures.six) None)
  = Raise (ValueError "invalid literal for int() with base 10").
Proof. reflexivity. Qed.

(** On a fragment that reads as a tree the constructor returns the
    tree, and the parser is its [try] block. *)
Lemma parse_power_markup config now (soup : Node) :
  _parse_power_response config now soup
  = try_except (parse_power_body config now soup) (fun _ => Ret None).
Proof. reflexivity. Qed.

Lemma parse_max3d_markup now (soup : Node) :
  _parse_max3d_response now soup
  = try_except (parse_max3d_body now soup) (fun _ => Ret None).
Proof. reflexivity. Qed.

Lemma parse_response_unreadable config now e r :
  _parse_response config now (Unreadable e) <> Ret r.
Proof. unfold _parse_response. case_bool_decide; discriminate. Qed.

Lemma parse_response_returns config now (soup : Node) :
  exists r, _parse_response config now soup = Ret r.
Proof.
  unfold _parse_response. case_bool_decide.
  - rewrite parse_max3d_markup. apply try_except_none.
  - rewrite parse_power_markup. apply try_except_none.
Qed.

(** On a fragment that reads as a tree, whatever is missing or malformed
    in it, each of the two parsers and their dispatcher returns: a
    record or no record. *)
Theorem parse_response_never_raises (config : LotteryConfig) (now : string)
    (soup : Node) :
  (exists r, _parse_power_response config now soup = Ret r)
  /\ (exists r, _parse_max3d_response now soup = Ret r)
  /\ (exists r, _parse_response config now soup = Ret r).
Proof.
  split; [rewrite parse_power_markup; apply try_except_none|].
  split; [rewrite parse_max3d_markup; apply try_except_none|].
  apply parse_response_returns.
Qed.

(** C7 fails on the code. The fragment is a text that holds a lone
    surrogate, as [response.json()] returns for an escaped one; the
    constructor call, the one statement of each parser before its [try],
    raises on it, and the exception leaves the parser, where the claim
    and the docstring have it return no record. *)
Theorem parse_response_unreadable_raises (config : LotteryConfig)
    (now : string) :
  _parse_power_response config now Fixtures.lone_surrogate
  = Raise Fixtures.cannot_encode
  /\ _parse_max3d_response now Fixtures.lone_surrogate
     = Raise Fixtures.cannot_encode
  /\ _parse_response config now Fixtures.lone_surrogate
     = Raise Fixtures.cannot_encode.
Proof.
  split; [reflexivity|]. split; [reflexivity|].
  unfold _parse_response. case_bool_decide; reflexivity.
Qed.

(** The clock reading goes into [process_time] and nowhere else: the id
    a fragment parses to does not depend on it. *)
Lemma parsed_id_now config now now' (soup : Node) :
  parsed_id (_parse_response config now' soup)
  = parsed_id (_parse_response config now soup).
Proof.
  unfold _parse_response.
  rewrite !parse_max3d_markup, !parse_power_markup.
  unfold parse_max3d_body, parse_power_body.
  case_bool_decide.
  - destruct (parse_header soup) as [[[d f]|]|e]; simpl; try reflexivity.
    destruct (len _ <? 2)%Z; reflexivity.
  - destruct (parse_header soup) as [[[d f]|]|e]; simpl; try reflexivity.
    destruct (result_div soup) as [div|]; simpl; try reflexivity.
    destruct (collect_numbers _) as [ns|e]; simpl; try reflexivity.
    destruct (len ns <? _)%Z; reflexivity.
Qed.

(* ================================================================== *)
(** ** Numeric draws: length of the result *)
(* ================================================================== *)

Lemma isdigit_nonempty t : isdigit t = true -> nonempty t = true.
Proof. unfold isdigit. intros H. apply andb_true_iff in H. tauto. Qed.

Lemma int_decimal_token t :
  isdigit t = true -> decimal_token t = true ->
  int t = Ret (decimal_value 0 t).
Proof.
  intros Hd Ht. apply isdigit_nonempty in Hd.
  unfold decimal_token in Ht. apply andb_true_iff in Ht as [Hall Hlen].
  unfold int. rewrite Hd, Hall, Hlen. reflexivity.
Qed.

Lemma collect_numbers_decimal (spans : list Node) :
  let texts := (fun span => strip (get_text span)) <$> spans in
  Forall (fun t => decimal_token t = true) (List.filter isdigit texts) ->
  collect_numbers spans = Ret (decimal_value 0 <$> List.filter isdigit texts).
Proof.
  induction spans as [|span rest IH]; simpl; intros Hall; [reflexivity|].
  destruct (isdigit (strip (get_text span))) eqn:Hd.
  - inversion Hall as [|t ts Ht Hts]; subst.
    rewrite (int_decimal_token _ Hd Ht). simpl.
    rewrite (IH Hts). reflexivity.
  - apply IH, Hall.
Qed.

Lemma collect_numbers_length (spans : list Node) (ns : list Z) :
  collect_numbers spans = Ret ns ->
  length ns
  = length (List.filter isdigit
              ((fun span => strip (get_text span)) <$> spans)).
Proof.
  revert ns. induction spans as [|span rest IH]; simpl; intros ns H.
  - inversion H. reflexivity.
  - destruct (isdigit (strip (get_text span))).
    + destruct (int (strip (get_text span))) as [n|e]; simpl in H;
        [|discriminate].
      destruct (collect_numbers rest) as [ns'|e]; simpl in H; [|discriminate].
      inversion H; subst. simpl. f_equal. apply IH. reflexivity.
    + apply IH, H.
Qed.

(** C5, as the code has it. A fragment with a valid header and a result
    container, a pick-count that is not negative. When the container
    holds at least pick-count whole-number tokens and [int] converts each
    of its whole-number tokens, the parser returns a record whose result
    is the first pick-count tokens as integers, so of length exactly
    pick-count. When it holds fewer, the parser returns no record. *)
Theorem power_result_length (config : LotteryConfig) (now : string)
    (soup : Node) (draw_id date_formatted : string) (div : Node) :
  parse_header soup = Ret (Some (draw_id, date_formatted)) ->
  result_div soup = Some div ->
  (0 <= numbers_to_pick config)%Z ->
  ((numbers_to_pick config <= len (whole_number_tokens div))%Z ->
   Forall (fun t => decimal_token t = true) (whole_number_tokens div) ->
   exists r ns,
     _parse_power_response config now soup = Ret (Some r)
     /\ pd_result r = Numbers ns
     /\ ns = take (Z.to_nat (numbers_to_pick config))
               (decimal_value 0 <$> whole_number_tokens div)
     /\ len ns = numbers_to_pick config)
  /\ ((len (whole_number_tokens div) < numbers_to_pick config)%Z ->
      _parse_power_response config now soup = Ret None).
Proof.
  intros Hh Hdiv Hpick.
  rewrite parse_power_markup. unfold parse_power_body.
  rewrite Hh. simpl. rewrite Hdiv. split.
  - intros Henough Hdec.
    unfold whole_number_tokens, span_texts in *.
    rewrite (collect_numbers_decimal _ Hdec). simpl.
    set (ns := decimal_value 0 <$> _) in *.
    assert (Hlen : len ns = len (List.filter isdigit
              ((fun span => strip (get_text span)) <$> select sel_span div))).
    { unfold len, ns. rewrite length_fmap. reflexivity. }
    destruct (Z.ltb_spec (len ns) (numbers_to_pick config)) as [Hlt|Hge];
      [lia|].
    simpl. eexists _, _. split; [reflexivity|]. simpl.
    split; [reflexivity|].
    unfold slice_to. destruct (Z.leb_spec 0 (numbers_to_pick config)); [|lia].
    split; [reflexivity|].
    unfold len in *. rewrite length_take. lia.
  - intros Hfew.
    destruct (collect_numbers (select sel_span div)) as [ns|e] eqn:Hc;
      simpl; [|reflexivity].
    apply collect_numbers_length in Hc.
    unfold whole_number_tokens, span_texts, len in *.
    rewrite <- Hc in Hfew.
    destruct (Z.ltb_spec (Z.of_nat (length ns)) (numbers_to_pick config));
      [reflexivity|lia].
Qed.

(** The fixture of a regular draw satisfies every hypothesis above. *)
Lemma power_result_length_witness :
  exists r ns,
    _parse_power_response POWER_655_CONFIG "T"
      (Fixtures.power_page "01458" "14/01/2026"
         Fixtures.seven (Some "01457")) = Ret (Some r)
    /\ pd_result r = Numbers ns
    /\ ns = take 6 [5; 12; 23; 34; 45; 50; 7]%Z
    /\ len ns = 6%Z.
Proof.
  refine (proj1 (power_result_length POWER_655_CONFIG "T"
            (Fixtures.power_page "01458" "14/01/2026"
               Fixtures.seven (Some "01457"))
            "01458" "2026-01-14"
            (Element "div" ["day_so_ket_qua_v2"] []
               (Fixtures.span ["bong_tron"] <$> Fixtures.seven))
            _ _ _) _ _).
  - reflexivity.
  - reflexivity.
  - simpl. lia.
  - vm_compute. discriminate.
  - repeat constructor.
Defined.

(** C5 as stated fails: a container holding seven whole-number tokens,
    the first of them the superscript two (U+00B2), for a pick-count of
    six. [isdigit] accepts the superscript, [int] raises on it, and the
    parser returns no record. *)
Lemma power_superscript_token_no_record :
  let soup :=
    Fixtures.power_page "01458" "14/01/2026"
      (String (ascii_of_N 178) "" :: Fixtures.six) (Some "01457") in
  exists div,
    parse_header soup = Ret (Some ("01458", "2026-01-14"))
    /\ result_div soup = Some div
    /\ (numbers_to_pick POWER_655_CONFIG <= len (whole_number_tokens div))%Z
    /\ _parse_power_response POWER_655_CONFIG "T" soup = Ret None.
Proof.
  eexists. split; [reflexivity|]. split; [reflexivity|].
  split; [vm_compute; discriminate|reflexivity].
Qed.

(* ================================================================== *)
(** ** The walker *)
(* ================================================================== *)

Lemma add_sent_nil w : add_sent [] w = w.
Proof. destruct w. unfold add_sent. simpl. rewrite app_nil_r. reflexivity. Qed.

Lemma add_sent_app reqs1 reqs2 w :
  add_sent reqs2 (add_sent reqs1 w) = add_sent (reqs1 ++ reqs2) w.
Proof. unfold add_sent. simpl. rewrite app_assoc. reflexivity. Qed.

Lemma fetch_draw_eq self draw_id w :
  fetch_draw self draw_id w
  = (fetched self draw_id w, add_sent [request_for self draw_id] w).
Proof. reflexivity. Qed.

(** [fetch_draw] issues one request and never raises. *)
Lemma fetch_draw_returns self draw_id w :
  exists r, fetch_draw self draw_id w
            = (Ret r, add_sent [request_for self draw_id] w).
Proof.
  rewrite fetch_draw_eq. unfold fetched.
  destruct (try_except_none
    match site w (sent w) (request_for self draw_id) with
    | Failed e => Raise e
    | NoContent => Ret None
    | Html soup =>
        _parse_response (config self)
          (now (add_sent [request_for self draw_id] w)) soup
    end) as [r Hr].
  rewrite Hr. eauto.
Qed.

(** What one run of the loop does: it returns, having appended some
    records [out] to the accumulator and sent some requests [reqs], no
    more than [n] of them and one at least per record; no record has a
    known id; the first record is the one [first_new] tells. Nothing else
    in the world changes. *)
Lemma crawl_loop_spec self existing_ids n :
  forall draw_id all_data w,
  exists out reqs,
    crawl_loop self existing_ids n draw_id all_data w
    = (Ret (all_data ++ out)%list, add_sent reqs w)
    /\ (length out <= length reqs)%nat
    /\ (length reqs <= n)%nat
    /\ Forall (fun r => id r ∉ existing_ids) out
    /\ head out = first_new self existing_ids n draw_id w.
Proof.
  induction n as [|n IH]; intros draw_id all_data w.
  - exists [], []. simpl. unfold ret.
    rewrite app_nil_r, add_sent_nil. repeat split; auto.
  - simpl. unfold ebind at 1. rewrite fetch_draw_eq.
    set (req := request_for self draw_id).
    assert (Hstop : exists out reqs,
      (Ret all_data, add_sent [req] w)
      = (Ret (all_data ++ out)%list, add_sent reqs w)
      /\ (length out <= length reqs)%nat /\ (length reqs <= S n)%nat
      /\ Forall (fun r => id r ∉ existing_ids) out /\ head out = None).
    { exists [], [req]. rewrite app_nil_r. simpl.
      repeat split; auto; lia. }
    destruct (fetched self draw_id w) as [[r|]|e] eqn:Hf.
    + case_bool_decide as Hknown.
      * exact Hstop.
      * simpl.
        destruct (pd_prev_draw_id r) as [prev|] eqn:Hprev.
        -- destruct (nonempty prev).
           ++ destruct (IH prev
                (all_data ++ [(pop_prev_draw_id r).2])%list
                (add_sent [req] w))
                as (out & reqs & Heq & Hlen & Hn & Hall & _).
              exists ((pop_prev_draw_id r).2 :: out), (req :: reqs).
              simpl in *. rewrite Heq.
              rewrite <- app_assoc, add_sent_app. simpl.
              repeat split; auto; try lia.
           ++ exists [(pop_prev_draw_id r).2], [req]. unfold ret. simpl.
              repeat split; auto; try lia.
        -- exists [(pop_prev_draw_id r).2], [req]. unfold ret. simpl.
           repeat split; auto; try lia.
    + exact Hstop.
    + pose proof (fetch_draw_returns self draw_id w) as [r Hr].
      rewrite fetch_draw_eq, Hf in Hr. discriminate.
Qed.

Lemma crawl_spec self max_records existing_ids w :
  exists out reqs,
    crawl self max_records existing_ids w = (Ret out, add_sent reqs w)
    /\ (length out <= length reqs)%nat
    /\ (length reqs <= range_len max_records)%nat
    /\ Forall (fun r => id r ∉ default ∅ existing_ids) out
    /\ head out
       = first_new self (default ∅ existing_ids) (range_len max_records) "" w.
Proof.
  unfold crawl.
  destruct (crawl_loop_spec self (default ∅ existing_ids)
              (range_len max_records) "" [] w) as (out & reqs & H).
  exists out, reqs. exact H.
Qed.

(** Against an unbroken chain at least as long as the budget, the loop
    uses its whole budget: one record per iteration. *)
Lemma crawl_loop_chain self existing_ids n :
  forall m draw_id all_data w,
  (n <= m)%nat ->
  unbroken_chain self existing_ids m draw_id w = true ->
  exists out w',
    crawl_loop self existing_ids n draw_id all_data w
    = (Ret (all_data ++ out)%list, w')
    /\ length out = n.
Proof.
  induction n as [|n IH]; intros m draw_id all_data w Hle Hchain.
  - exists [], w. simpl. rewrite app_nil_r. auto.
  - destruct m as [|k]; [lia|].
    cbn [unbroken_chain] in Hchain. cbn [crawl_loop]. unfold ebind at 1.
    destruct (fetch_draw self draw_id w) as [[[r|]|e] w1]; try discriminate.
    apply andb_true_iff in Hchain as [Hnew Hrest].
    apply negb_true_iff in Hnew. rewrite Hnew. simpl.
    destruct n as [|n'].
    + exists [(pop_prev_draw_id r).2], w1. split; [|reflexivity].
      destruct (pd_prev_draw_id r) as [prev|]; [|reflexivity].
      destruct (nonempty prev); reflexivity.
    + destruct k as [|k']; [lia|].
      destruct (pd_prev_draw_id r) as [prev|]; [|discriminate].
      apply andb_true_iff in Hrest as [Hne Hrest]. rewrite Hne.
      destruct (IH (S k') prev (all_data ++ [(pop_prev_draw_id r).2])%list
                  w1 ltac:(lia) Hrest) as (out & w' & Heq & Hlen).
      exists ((pop_prev_draw_id r).2 :: out), w'.
      simpl in *. rewrite Heq, <- app_assoc. simpl. auto.
Qed.

(** C1. In every crawl session: when the record a fetch yields has an id
    of the known-id set, the loop returns at once what it had
    accumulated, without that record and without a further request; and
    no record of the output of [crawl] has a known id. In scenario B
    (store 98, 99, 100; latest draw 101 linking to 100) [update_data]
    asks for the latest draw and for draw 100, returns 1, and the store
    gains exactly the record of draw 101. *)
Theorem crawl_stops_at_known_id :
  (forall self existing_ids n draw_id all_data w r w1,
      fetch_draw self draw_id w = (Ret (Some r), w1) ->
      pd_id r ∈ existing_ids ->
      crawl_loop self existing_ids (S n) draw_id all_data w
      = (Ret all_data, w1))
  /\ (forall self max_records existing_ids w,
        exists out reqs,
          crawl self max_records existing_ids w = (Ret out, add_sent reqs w)
          /\ Forall (fun r => id r ∉ default ∅ existing_ids) out)
  /\ (let before := store_lines POWER_655_CONFIG Scenarios.scenario_B in
      let '(n, w') := update_data "655" 3 Scenarios.scenario_B in
      id <$> before = ["98"; "99"; "100"]
      /\ n = Ret 1%Z
      /\ draw_ids (sent w') = [""; "100"]
      /\ exists r, id r = "101"
                   /\ store_lines POWER_655_CONFIG w' = (before ++ [r])%list).
Proof.
  split; [|split].
  - intros self existing_ids n draw_id all_data w r w1 Hf Hknown.
    cbn [crawl_loop]. unfold ebind. rewrite Hf.
    rewrite bool_decide_eq_true_2 by assumption. reflexivity.
  - intros self max_records existing_ids w.
    destruct (crawl_spec self max_records existing_ids w)
      as (out & reqs & Heq & _ & _ & Hall & _).
    eauto.
  - vm_compute. repeat split.
    exists {| date := "2026-01-15"; id := "101";
              result := Numbers [5; 12; 23; 34; 45; 50]%Z;
              process_time := "2026-01-15T08:00:00" |}.
    split; reflexivity.
Qed.

(** Draw 100 is fetched in scenario B while the store knows it. *)
Lemma crawl_stops_at_known_id_witness :
  crawl_loop (new_crawler POWER_655_CONFIG) {["98"; "99"; "100"]} 1 "100" []
    Scenarios.scenario_B
  = (Ret [],
     add_sent [request_for (new_crawler POWER_655_CONFIG) "100"]
       Scenarios.scenario_B).
Proof.
  eapply (proj1 crawl_stops_at_known_id
            (new_crawler POWER_655_CONFIG) {["98"; "99"; "100"]} 0 "100" []
            Scenarios.scenario_B).
  - reflexivity.
  - set_solver.
Defined.

(** C2. With a bound [max_records] that is not negative, [crawl] returns
    without raising, having sent at most [max_records] requests and
    collected at most [max_records] records; against an unbroken chain
    of more than [max_records] available draws it collects exactly
    [max_records] records. In scenario C, five chained draws and a bound
    of 2, it returns the records of the two latest draws. *)
Theorem crawl_bounded :
  (forall self max_records existing_ids w,
      (0 <= max_records)%Z ->
      exists out reqs,
        crawl self max_records existing_ids w = (Ret out, add_sent reqs w)
        /\ (len reqs <= max_records)%Z
        /\ (len out <= max_records)%Z
        /\ forall m,
             (Z.to_nat max_records < m)%nat ->
             unbroken_chain self (default ∅ existing_ids) m "" w = true ->
             len out = max_records)
  /\ (unbroken_chain (new_crawler POWER_655_CONFIG) ∅ 5 ""
        Scenarios.scenario_C = true
      /\ let '(res, w') :=
           crawl (new_crawler POWER_655_CONFIG) 2 None Scenarios.scenario_C in
         draw_ids (sent w') = [""; "104"]
         /\ exists out, res = Ret out /\ id <$> out = ["105"; "104"]).
Proof.
  split.
  - intros self max_records existing_ids w Hpos.
    destruct (crawl_spec self max_records existing_ids w)
      as (out & reqs & Heq & Hlen & Hn & _ & _).
    exists out, reqs. unfold len, range_len in *.
    repeat split; try assumption; try lia.
    intros m Hm Hchain.
    destruct (crawl_loop_chain self (default ∅ existing_ids)
                (Z.to_nat max_records) m "" [] w ltac:(lia) Hchain)
      as (out' & w' & Heq' & Hlen').
    unfold crawl, range_len in Heq. rewrite Heq in Heq'.
    inversion Heq'; subst. simpl. lia.
  - split; [reflexivity|]. vm_compute.
    split; [reflexivity|]. eexists. split; reflexivity.
Qed.

(** Scenario C meets the hypotheses: a bound of 2, a chain of 5. *)
Lemma crawl_bounded_witness :
  exists out reqs,
    crawl (new_crawler POWER_655_CONFIG) 2 None Scenarios.scenario_C
    = (Ret out, add_sent reqs Scenarios.scenario_C)
    /\ (len reqs <= 2)%Z /\ (len out <= 2)%Z /\ len out = 2%Z.
Proof.
  destruct (proj1 crawl_bounded (new_crawler POWER_655_CONFIG) 2%Z None
              Scenarios.scenario_C ltac:(lia))
    as (out & reqs & Heq & Hreqs & Hout & Hchain).
  exists out, reqs. repeat split; try assumption.
  apply (Hchain 5%nat); [simpl; lia | reflexivity].
Defined.

(* ================================================================== *)
(** ** The sort *)
(* ================================================================== *)

Section SortBy.
Context {A : Type} (key : A -> string).

Local Abbreviation le := (key_le key).

Lemma insert_by_Permutation x l : insert_by key x l ≡ₚ x :: l.
Proof.
  induction l as [|y l IH]; simpl; [reflexivity|].
  destruct (String.leb (key x) (key y)); [reflexivity|].
  rewrite IH. apply Permutation_swap.
Qed.

Lemma sort_by_Permutation l : sort_by key l ≡ₚ l.
Proof.
  induction l as [|x l IH]; simpl; [reflexivity|].
  rewrite insert_by_Permutation, IH. reflexivity.
Qed.

Lemma length_sort_by l : length (sort_by key l) = length l.
Proof. apply Permutation_length, sort_by_Permutation. Qed.

Lemma insert_by_HdRel a x l :
  le a x -> HdRel le a l -> HdRel le a (insert_by key x l).
Proof.
  intros Hax Hal. destruct l as [|y l]; simpl; [constructor; exact Hax|].
  destruct (String.leb (key x) (key y)); constructor;
    [exact Hax | inversion Hal; assumption].
Qed.

Lemma insert_by_Sorted x l : Sorted le l -> Sorted le (insert_by key x l).
Proof.
  induction l as [|y l IH]; simpl; intros Hs.
  - repeat constructor.
  - destruct (String.leb (key x) (key y)) eqn:Hxy.
    + constructor; [exact Hs | constructor; exact Hxy].
    + inversion Hs as [|y' l' Hl Hhd]; subst.
      constructor; [apply IH, Hl|].
      apply insert_by_HdRel; [|exact Hhd].
      destruct (String.leb_total (key x) (key y)) as [H|H];
        [congruence | exact H].
Qed.

Lemma sort_by_Sorted l : Sorted le (sort_by key l).
Proof.
  induction l as [|x l IH]; simpl; [constructor|].
  apply insert_by_Sorted, IH.
Qed.
End SortBy.

Lemma ascii_compare_N a b :
  Ascii.compare a b = N.compare (N_of_ascii a) (N_of_ascii b).
Proof. reflexivity. Qed.

Lemma string_leb_trans s1 s2 s3 :
  String.leb s1 s2 = true -> String.leb s2 s3 = true ->
  String.leb s1 s3 = true.
Proof.
  unfold String.leb. revert s2 s3.
  induction s1 as [|a s1 IH]; intros [|b s2] [|c s3]; simpl;
    try congruence.
  rewrite !ascii_compare_N.
  destruct (N.compare_spec (N_of_ascii a) (N_of_ascii b)) as [Hab|Hab|Hab];
    destruct (N.compare_spec (N_of_ascii b) (N_of_ascii c)) as [Hbc|Hbc|Hbc];
    try congruence.
  - rewrite Hab, Hbc, N.compare_refl. apply IH.
  - intros _ _. rewrite Hab. apply N.compare_lt_iff in Hbc. rewrite Hbc.
    reflexivity.
  - intros _ _. rewrite <- Hbc. apply N.compare_lt_iff in Hab. rewrite Hab.
    reflexivity.
  - intros _ _.
    assert (H : (N_of_ascii a < N_of_ascii c)%N) by lia.
    apply N.compare_lt_iff in H. rewrite H. reflexivity.
Qed.

Lemma date_le_trans : Transitive date_le.
Proof. intros a b c. unfold date_le, key_le. apply string_leb_trans. Qed.

Lemma sort_by_date_sorted (l : list DrawRecord) :
  StronglySorted date_le (sort_by date l).
Proof.
  apply Sorted_StronglySorted; [apply date_le_trans|].
  apply (sort_by_Sorted date).
Qed.

(* ================================================================== *)
(** ** The store *)
(* ================================================================== *)

Lemma not_known_all existing_ids l :
  Forall (fun r => id r ∉ existing_ids) l -> not_known existing_ids l = l.
Proof.
  induction 1 as [|r l Hr _ IH]; simpl; [reflexivity|].
  unfold not_known in *. simpl.
  rewrite bool_decide_eq_false_2 by assumption. simpl. rewrite IH.
  reflexivity.
Qed.

Lemma not_known_none existing_ids l :
  Forall (fun r => id r ∈ existing_ids) l -> not_known existing_ids l = [].
Proof.
  induction 1 as [|r l Hr _ IH]; simpl; [reflexivity|].
  unfold not_known in *. simpl.
  rewrite bool_decide_eq_true_2 by assumption. simpl. exact IH.
Qed.

Lemma store_lines_written config lines w f :
  files w = <[data_file config := lines]> f -> store_lines config w = lines.
Proof.
  intros H. unfold store_lines. rewrite H, lookup_insert_eq. reflexivity.
Qed.

Lemma store_lines_store_written config lines w :
  store_lines config (store_written config lines w) = lines.
Proof. apply (store_lines_written config lines _ (files w)). reflexivity. Qed.

Lemma store_lines_add_sent config reqs w :
  store_lines config (add_sent reqs w) = store_lines config w.
Proof. reflexivity. Qed.

(** Reading a file keeps its lines in number and order, and the id and
    the date of each. *)
Lemma fmap_imap_keep {A B} (g : A -> B) (f : nat -> A -> A) (l : list A) :
  (forall i x, g (f i x) = g x) -> g <$> imap f l = g <$> l.
Proof.
  revert f. induction l as [|x l IH]; intros f Hf; [reflexivity|].
  rewrite imap_cons. cbn [fmap list_fmap]. rewrite Hf. f_equal.
  apply IH. intros i y. apply Hf.
Qed.

Lemma id_reread w lines : id <$> reread w lines = id <$> lines.
Proof. apply fmap_imap_keep. reflexivity. Qed.

Lemma date_reread w lines : date <$> reread w lines = date <$> lines.
Proof. apply fmap_imap_keep. reflexivity. Qed.

Lemma length_reread w lines : length (reread w lines) = length lines.
Proof. apply length_imap. Qed.

Lemma ids_of_reread w lines : ids_of (reread w lines) = ids_of lines.
Proof. unfold ids_of. rewrite id_reread. reflexivity. Qed.

Lemma ids_of_existing_data config w :
  ids_of (existing_data config w) = ids_of (store_lines config w).
Proof. apply ids_of_reread. Qed.

(** On a store that exists and holds no line, [update_data] raises where
    it reads the store: nothing has been sent, nothing is written. *)
Lemma update_data_empty product pages config w :
  PRODUCTS !! product = Some config ->
  files w !! data_file config = Some [] ->
  update_data product pages w = (Raise empty_store_error, w).
Proof.
  intros Hp He. unfold update_data. rewrite Hp.
  unfold ebind at 1. unfold read_store. rewrite He. reflexivity.
Qed.

Lemma read_store_readable config w :
  readable config w ->
  exists stored,
    read_store (data_file config) w = (Ret stored, w)
    /\ default [] stored = existing_data config w.
Proof.
  unfold readable, read_store, existing_data, store_lines. intros Hr.
  destruct (files w !! data_file config) as [[|r lines]|].
  - congruence.
  - eexists. split; reflexivity.
  - eexists. split; reflexivity.
Qed.

(** [update_data] for a known product whose store can be read, in terms
    of the crawl it makes: it returns 0 and leaves the files alone when
    no crawled record passes the filter, and otherwise writes the sorted
    merge and returns the number of records that passed. *)
Lemma update_data_eq product pages config w :
  PRODUCTS !! product = Some config ->
  readable config w ->
  forall new_data wc,
  crawl (new_crawler config) (pages * 10)
        (Some (ids_of (store_lines config w))) w = (Ret new_data, wc) ->
  update_data product pages w
  = let new_records := not_known (ids_of (store_lines config w)) new_data in
    match new_records with
    | [] => (Ret 0%Z, wc)
    | _ :: _ =>
        (Ret (len new_records),
         store_written config
           (sort_by date (existing_data config w ++ new_records)%list) wc)
    end.
Proof.
  intros Hp Hr new_data wc Hc. unfold update_data. rewrite Hp.
  destruct (read_store_readable config w Hr) as (stored & Hread & Hstored).
  unfold ebind at 1. rewrite Hread. rewrite Hstored.
  rewrite !ids_of_existing_data.
  unfold ebind at 1. rewrite Hc.
  destruct new_data as [|r new_data]; [reflexivity|].
  destruct (not_known _ (r :: new_data)) as [|r' new_records];
    reflexivity.
Qed.

(** [update_data] for a known product whose store can be read, whole:
    the crawl it makes, and the world it leaves. *)
Lemma update_data_spec product pages config w :
  PRODUCTS !! product = Some config ->
  readable config w ->
  let existing_ids := ids_of (store_lines config w) in
  exists new_data reqs,
    crawl (new_crawler config) (pages * 10) (Some existing_ids) w
    = (Ret new_data, add_sent reqs w)
    /\ (length new_data <= length reqs)%nat
    /\ (length reqs <= range_len (pages * 10))%nat
    /\ Forall (fun r => id r ∉ existing_ids) new_data
    /\ head new_data
       = first_new (new_crawler config) existing_ids
           (range_len (pages * 10)) "" w
    /\ update_data product pages w
       = match new_data with
         | [] => (Ret 0%Z, add_sent reqs w)
         | _ :: _ =>
             (Ret (len new_data),
              store_written config
                (sort_by date (existing_data config w ++ new_data)%list)
                (add_sent reqs w))
         end.
Proof.
  intros Hp Hr existing_ids.
  destruct (crawl_spec (new_crawler config) (pages * 10)
              (Some existing_ids) w)
    as (new_data & reqs & Hc & Hlen & Hn & Hall & Hhd).
  exists new_data, reqs. simpl in Hall, Hhd.
  repeat split; try assumption.
  rewrite (update_data_eq product pages config w Hp Hr new_data _ Hc).
  fold existing_ids.
  rewrite (not_known_all _ _ Hall).
  destruct new_data; reflexivity.
Qed.

(** For a product of the table, [update_data] either raises on a store
    without a line, the world untouched, or reads the store. *)
Lemma update_data_cases product pages config w :
  PRODUCTS !! product = Some config ->
  (files w !! data_file config = Some []
   /\ update_data product pages w = (Raise empty_store_error, w))
  \/ readable config w.
Proof.
  intros Hp. unfold readable.
  destruct (files w !! data_file config) as [[|r lines]|] eqn:Hf.
  - left. split; [reflexivity|].
    apply (update_data_empty product pages config w Hp Hf).
  - right. discriminate.
  - right. discriminate.
Qed.

(** When [update_data] returns, it has read the store. *)
Lemma update_data_returned product pages config w n w' :
  PRODUCTS !! product = Some config ->
  update_data product pages w = (Ret n, w') ->
  readable config w.
Proof.
  intros Hp Hu.
  destruct (update_data_cases product pages config w Hp)
    as [[_ He]|Hr]; [|exact Hr].
  rewrite He in Hu. discriminate.
Qed.

(** C8. Whenever [update_data] returns for a product of the table: the
    requests it has sent are those of one crawl bounded by [pages * 10],
    made against the ids of the store; the number it returns is the
    number of records it has merged into the store, records whose id
    the store did not hold; and the store has grown by that many
    lines. *)
Theorem update_returns_new_count product pages config w n w' :
  PRODUCTS !! product = Some config ->
  update_data product pages w = (Ret n, w') ->
  exists new_data reqs,
    crawl (new_crawler config) (pages * 10)
          (Some (ids_of (store_lines config w))) w
    = (Ret new_data, add_sent reqs w)
    /\ sent w' = (sent w ++ reqs)%list
    /\ (length reqs <= range_len (pages * 10))%nat
    /\ n = len new_data
    /\ Forall (fun r => id r ∉ ids_of (store_lines config w)) new_data
    /\ id <$> store_lines config w'
       ≡ₚ ((id <$> store_lines config w) ++ (id <$> new_data))%list
    /\ len (store_lines config w') = (len (store_lines config w) + n)%Z
    /\ (new_data <> [] ->
        store_lines config w' ≡ₚ (existing_data config w ++ new_data)%list).
Proof.
  intros Hp Hu.
  pose proof (update_data_returned product pages config w n w' Hp Hu) as Hr.
  destruct (update_data_spec product pages config w Hp Hr)
    as (new_data & reqs & Hc & _ & Hn & Hall & _ & Heq).
  rewrite Heq in Hu. exists new_data, reqs.
  split; [exact Hc|].
  destruct new_data as [|r new_data]; inversion Hu; subst; clear Hu.
  - split; [reflexivity|]. split; [exact Hn|]. split; [reflexivity|].
    split; [constructor|]. rewrite store_lines_add_sent.
    split; [rewrite app_nil_r; reflexivity|].
    split; [unfold len; simpl; lia|]. congruence.
  - rewrite store_lines_store_written.
    split; [reflexivity|]. split; [exact Hn|]. split; [reflexivity|].
    split; [exact Hall|].
    split; [rewrite sort_by_Permutation, fmap_app; unfold existing_data;
            rewrite id_reread; reflexivity|].
    split; [|intros _; apply sort_by_Permutation].
    unfold len, existing_data.
    rewrite length_sort_by, length_app, length_reread. lia.
Qed.

(** Scenario B: product 655 is in the table, and the update returns. *)
Lemma update_returns_new_count_witness :
  exists new_data reqs,
    crawl (new_crawler POWER_655_CONFIG) (3 * 10)
          (Some (ids_of (store_lines POWER_655_CONFIG
                           Scenarios.scenario_B)))
          Scenarios.scenario_B
    = (Ret new_data, add_sent reqs Scenarios.scenario_B)
    /\ sent (update_data "655" 3 Scenarios.scenario_B).2
       = (sent Scenarios.scenario_B ++ reqs)%list
    /\ (length reqs <= range_len (3 * 10))%nat
    /\ 1%Z = len new_data
    /\ Forall (fun r => id r ∉ ids_of (store_lines POWER_655_CONFIG
                                         Scenarios.scenario_B)) new_data
    /\ id <$> store_lines POWER_655_CONFIG
                (update_data "655" 3 Scenarios.scenario_B).2
       ≡ₚ ((id <$> store_lines POWER_655_CONFIG Scenarios.scenario_B)
           ++ (id <$> new_data))%list
    /\ len (store_lines POWER_655_CONFIG
              (update_data "655" 3 Scenarios.scenario_B).2)
       = (len (store_lines POWER_655_CONFIG Scenarios.scenario_B) + 1)%Z
    /\ (new_data <> [] ->
        store_lines POWER_655_CONFIG
          (update_data "655" 3 Scenarios.scenario_B).2
        ≡ₚ (existing_data POWER_655_CONFIG Scenarios.scenario_B
            ++ new_data)%list).
Proof.
  apply (update_returns_new_count "655" 3 POWER_655_CONFIG
           Scenarios.scenario_B 1%Z
           (update_data "655" 3 Scenarios.scenario_B).2).
  - reflexivity.
  - destruct (update_data "655" 3 Scenarios.scenario_B) as [res w'] eqn:Hu.
    vm_compute in Hu. inversion Hu. reflexivity.
Defined.

(** C10. When the store has been read and the crawl yields no record, or
    only records whose id the store holds, [update_data] returns 0
    without writing: the files are what they were, and no file has been
    opened for writing. *)
Theorem update_zero_no_write product pages config w new_data wc :
  PRODUCTS !! product = Some config ->
  readable config w ->
  crawl (new_crawler config) (pages * 10)
        (Some (ids_of (store_lines config w))) w = (Ret new_data, wc) ->
  new_data = []
  \/ Forall (fun r => id r ∈ ids_of (store_lines config w)) new_data ->
  exists w',
    update_data product pages w = (Ret 0%Z, w')
    /\ files w' = files w
    /\ writes w' = writes w.
Proof.
  intros Hp Hr Hc Hnone.
  rewrite (update_data_eq product pages config w Hp Hr new_data wc Hc).
  assert (Hf : not_known (ids_of (store_lines config w)) new_data = []).
  { destruct Hnone as [->|Hall]; [reflexivity|].
    apply not_known_none, Hall. }
  rewrite Hf. simpl. exists wc. split; [reflexivity|].
  destruct (crawl_spec (new_crawler config) (pages * 10)
              (Some (ids_of (store_lines config w))) w)
    as (out & reqs & Hc' & _).
  rewrite Hc in Hc'. inversion Hc'; subst. auto.
Qed.

(** The remote is down: the crawl yields nothing. *)
Lemma update_zero_no_write_witness :
  exists w',
    update_data "655" 3 Scenarios.scenario_down = (Ret 0%Z, w')
    /\ files w' = files Scenarios.scenario_down
    /\ writes w' = writes Scenarios.scenario_down.
Proof.
  apply (update_zero_no_write "655" 3 POWER_655_CONFIG
           Scenarios.scenario_down []
           (add_sent [request_for (new_crawler POWER_655_CONFIG) ""]
              Scenarios.scenario_down)).
  - reflexivity.
  - vm_compute. discriminate.
  - reflexivity.
  - left. reflexivity.
Defined.

(** C9. In scenario [scenario_self_link] the store holds the ids 98, 99
    and 100, pairwise distinct, and the latest draw, 101, links to
    itself. The walker follows the link for its whole budget; neither
    filter compares the crawled records with one another; [update_data]
    returns 10 and the store it writes holds the id 101 ten times. *)
Theorem update_self_link_duplicates :
  let before := store_lines POWER_655_CONFIG Scenarios.scenario_self_link in
  let '(res, w') := update_data "655" 1 Scenarios.scenario_self_link in
  NoDup (id <$> before)
  /\ res = Ret 10%Z
  /\ id <$> store_lines POWER_655_CONFIG w'
     = (["98"; "99"; "100"] ++ replicate 10 "101")%list
  /\ ~ NoDup (id <$> store_lines POWER_655_CONFIG w').
Proof.
  vm_compute. split; [|repeat split].
  - apply (bool_decide_unpack _). vm_compute. exact I.
  - intros H.
    do 3 (apply NoDup_cons in H as [_ H]).
    apply NoDup_cons in H as [Hin _]. apply Hin. left.
Qed.

(* ================================================================== *)
(** ** Running the update twice *)
(* ================================================================== *)

(** Against a remote without memory, the id a fetch comes to is the same
    in any two worlds that share the remote. *)
Lemma fetched_id_unchanging self draw_id w w1 :
  unchanging w -> site w1 = site w ->
  parsed_id (fetched self draw_id w1) = parsed_id (fetched self draw_id w).
Proof.
  intros Hun Hsite. unfold fetched. rewrite Hsite.
  rewrite (Hun (sent w1) (sent w)).
  destruct (site w (sent w) (request_for self draw_id)) as [e| |soup];
    try reflexivity.
  pose proof (parsed_id_now (config self)
                (now (add_sent [request_for self draw_id] w))
                (now (add_sent [request_for self draw_id] w1)) soup) as Hid.
  destruct (parse_response_returns (config self)
              (now (add_sent [request_for self draw_id] w)) soup) as [r Hr].
  destruct (parse_response_returns (config self)
              (now (add_sent [request_for self draw_id] w1)) soup)
    as [r1 Hr1].
  rewrite Hr, Hr1 in *. exact Hid.
Qed.

Lemma first_new_Some self existing_ids n draw_id w r :
  first_new self existing_ids n draw_id w = Some r ->
  parsed_id (fetched self draw_id w) = Some (id r).
Proof.
  unfold first_new. destruct n; [discriminate|].
  destruct (fetched self draw_id w) as [[p|]|e]; try discriminate.
  case_bool_decide; [discriminate|].
  intros Heq. inversion Heq. reflexivity.
Qed.

Lemma first_new_known self existing_ids n draw_id w i :
  parsed_id (fetched self draw_id w) = Some i -> i ∈ existing_ids ->
  first_new self existing_ids n draw_id w = None.
Proof.
  unfold first_new. destruct n; [reflexivity|].
  destruct (fetched self draw_id w) as [[p|]|e]; try reflexivity.
  simpl. intros H Hin. inversion H; subst.
  rewrite bool_decide_eq_true_2 by assumption. reflexivity.
Qed.

Lemma first_new_None self existing_ids n draw_id w w1 :
  parsed_id (fetched self draw_id w1) = parsed_id (fetched self draw_id w) ->
  first_new self existing_ids n draw_id w = None ->
  first_new self existing_ids n draw_id w1 = None.
Proof.
  unfold first_new. destruct n; [reflexivity|].
  destruct (fetched self draw_id w) as [[p|]|e];
    destruct (fetched self draw_id w1) as [[p1|]|e1]; simpl;
    try reflexivity; try discriminate.
  intros Heq. inversion Heq as [Hid]. rewrite Hid.
  case_bool_decide; [reflexivity|discriminate].
Qed.

Lemma elem_of_ids_of r records : r ∈ records -> id r ∈ ids_of records.
Proof.
  intros H. unfold ids_of. apply elem_of_list_to_set.
  apply list_elem_of_fmap. exists r. auto.
Qed.

(** A second run that finds nothing new: it returns 0 and writes
    nothing. *)
Lemma update_nothing_new product pages config w :
  PRODUCTS !! product = Some config ->
  readable config w ->
  first_new (new_crawler config) (ids_of (store_lines config w))
    (range_len (pages * 10)) "" w = None ->
  exists w',
    update_data product pages w = (Ret 0%Z, w')
    /\ files w' = files w /\ writes w' = writes w.
Proof.
  intros Hp Hr Hnone.
  destruct (update_data_spec product pages config w Hp Hr)
    as (new_data & reqs & _ & _ & _ & _ & Hhd & Heq).
  rewrite Hnone in Hhd. destruct new_data; [|discriminate].
  rewrite Heq. eexists. split; [reflexivity|]. auto.
Qed.

(** A store that has been written holds a line. *)
Lemma readable_written config l1 r l2 w :
  readable config (store_written config (sort_by date (l1 ++ r :: l2)%list) w).
Proof.
  unfold readable, store_written. simpl. rewrite lookup_insert_eq.
  intros H. inversion H as [H1]. apply (f_equal length) in H1.
  rewrite length_sort_by, length_app in H1. simpl in H1. lia.
Qed.

(** C4. Against a remote without memory, whose replies are the same on
    the second run as on the first: after a first [update_data] has
    returned, a second one returns 0, and leaves the files as the first
    left them, every line of the store in its place; it writes
    nothing. *)
Theorem update_idempotent product pages w n1 w1 :
  unchanging w ->
  update_data product pages w = (Ret n1, w1) ->
  exists w2,
    update_data product pages w1 = (Ret 0%Z, w2)
    /\ files w2 = files w1
    /\ writes w2 = writes w1.
Proof.
  intros Hun Hu.
  destruct (PRODUCTS !! product) as [config|] eqn:Hp;
    [|unfold update_data in Hu; rewrite Hp in Hu; discriminate].
  pose proof (update_data_returned product pages config w n1 w1 Hp Hu)
    as Hr.
  destruct (update_data_spec product pages config w Hp Hr)
    as (new_data & reqs & _ & _ & _ & Hall & Hhd & Heq).
  rewrite Heq in Hu. apply (update_nothing_new product pages config w1 Hp).
  - destruct new_data as [|r0 rest]; inversion Hu; subst; clear Hu.
    + exact Hr.
    + apply readable_written.
  - destruct new_data as [|r0 rest]; inversion Hu; subst; clear Hu.
    + apply (first_new_None _ _ _ _ w).
      * apply fetched_id_unchanging; [exact Hun|reflexivity].
      * exact (eq_sym Hhd).
    + apply (first_new_known _ _ _ _ _ (id r0)).
      * rewrite (fetched_id_unchanging _ _ w); [|exact Hun|reflexivity].
        apply (first_new_Some _ _ _ _ _ _ (eq_sym Hhd)).
      * apply elem_of_ids_of. rewrite store_lines_store_written.
        rewrite sort_by_Permutation. apply elem_of_app. right. left.
Qed.

(** Scenario B, run twice. *)
Lemma update_idempotent_witness :
  exists w2,
    update_data "655" 3 (update_data "655" 3 Scenarios.scenario_B).2
    = (Ret 0%Z, w2)
    /\ files w2 = files (update_data "655" 3 Scenarios.scenario_B).2
    /\ writes w2 = writes (update_data "655" 3 Scenarios.scenario_B).2.
Proof.
  apply (update_idempotent "655" 3 Scenarios.scenario_B 1%Z).
  - intros served served' req. reflexivity.
  - reflexivity.
Defined.

(* ================================================================== *)
(** ** Digit triplets *)
(* ================================================================== *)

Lemma single_digit_inv t :
  single_digit t = true -> exists c, t = String c "" /\ isdigit_char c = true.
Proof.
  unfold single_digit, isdigit. intros H.
  apply andb_true_iff in H as [Hd Hlen].
  apply andb_true_iff in Hd as [_ Hall].
  destruct t as [|c [|c' t]]; try discriminate.
  exists c. simpl in Hall. apply andb_true_iff in Hall as [Hc _]. auto.
Qed.

(** A complete triplet contributes a string of three digit characters. *)
Lemma triplet_of_complete div :
  complete_triplet div = true ->
  exists t,
    triplet_of div = Some t
    /\ String.length t = 3%nat
    /\ str_all isdigit_char t = true.
Proof.
  unfold complete_triplet, triplet_of. intros H.
  apply andb_true_iff in H as [Hlen Hall].
  destruct (digits_of div) as [|a [|b [|c [|d l]]]]; try discriminate.
  simpl in Hall.
  apply andb_true_iff in Hall as [Ha Hall].
  apply andb_true_iff in Hall as [Hb Hall].
  apply andb_true_iff in Hall as [Hc _].
  destruct (single_digit_inv a Ha) as (x & -> & Hx).
  destruct (single_digit_inv b Hb) as (y & -> & Hy).
  destruct (single_digit_inv c Hc) as (z & -> & Hz).
  unfold isdigit. simpl. rewrite Hx, Hy, Hz. simpl.
  eexists. split; [reflexivity|]. split; [reflexivity|].
  simpl. rewrite Hx, Hy, Hz. reflexivity.
Qed.

(** With a valid header, the parser returns a record exactly when two
    result divs or more contribute a number, and the result lists what
    they contribute, in document order. *)
Lemma max3d_record_iff now (soup : Node) draw_id date_formatted :
  parse_header soup = Ret (Some (draw_id, date_formatted)) ->
  let numbers := omap triplet_of (select sel_day_so_ket_qua_v2 soup) in
  _parse_max3d_response now soup
  = if (len numbers <? 2)%Z then Ret None
    else Ret (Some {| pd_date := date_formatted; pd_id := draw_id;
                      pd_result := Triplets numbers;
                      pd_process_time := now;
                      pd_prev_draw_id := find_prev_draw_id soup |}).
Proof.
  intros Hh. rewrite parse_max3d_markup. unfold parse_max3d_body.
  rewrite Hh. simpl. destruct (len _ <? 2)%Z; reflexivity.
Qed.

(** C6 fails on the code. Two result divs, each with the three
    sub-elements 12, 3 and 4: no div is a complete triplet, since a
    sub-element holds two digits, and the claim has the parser return no
    record. The parser tests each text with [isdigit] and counts the
    sub-elements, not the digits; it returns a record whose result is
    two strings of four characters. *)
Theorem max3d_wide_group_accepted :
  let soup :=
    Fixtures.max3d_page "00123" "14/01/2026"
      [["12"; "3"; "4"]; ["12"; "3"; "4"]] None in
  parse_header soup = Ret (Some ("00123", "2026-01-14"))
  /\ List.filter complete_triplet (select sel_day_so_ket_qua_v2 soup) = []
  /\ exists r,
       _parse_max3d_response "T" soup = Ret (Some r)
       /\ pd_result r = Triplets ["1234"; "1234"].
Proof.
  split; [reflexivity|]. split; [reflexivity|].
  eexists. split; reflexivity.
Qed.

(* ================================================================== *)
(** ** Header fields: draw ids and dates *)
(* ================================================================== *)

Lemma span_digits_decimal s :
  str_all isdecimal_char (span_digits s).1 = true.
Proof.
  induction s as [|c s IH]; simpl; [reflexivity|].
  destruct (isdecimal_char c) eqn:Hc; [|reflexivity].
  destruct (span_digits s) as [d rest]. simpl in *. rewrite Hc, IH.
  reflexivity.
Qed.

Lemma span_digits_draw_id s d rest :
  span_digits s = (d, rest) -> nonempty d = true -> is_draw_id d = true.
Proof.
  intros H Hn. unfold is_draw_id. rewrite Hn. simpl.
  pose proof (span_digits_decimal s) as Hd. rewrite H in Hd. exact Hd.
Qed.

Lemma search_draw_id_is_draw_id s d :
  search_draw_id s = Some d -> is_draw_id d = true.
Proof.
  induction s as [|c s IH]; cbn [search_draw_id]; [discriminate|].
  destruct (is_char "#" c); [|exact IH].
  destruct (span_digits s) as [[|x d'] rest] eqn:Hs; [exact IH|].
  intros H. inversion H; subst.
  apply (span_digits_draw_id s _ rest Hs). reflexivity.
Qed.

Lemma search_client_draw_is_draw_id s d :
  search_client_draw s = Some d -> is_draw_id d = true.
Proof.
  assert (Hhere : forall s, match_client_draw_here s = Some d ->
                            is_draw_id d = true).
  { intros s0. unfold match_client_draw_here.
    destruct (match_classes _ s0) as [[m rest]|]; [|discriminate].
    destruct (span_digits rest) as [[|x d'] rest'] eqn:Hs; [discriminate|].
    destruct (match_classes _ rest'); [|discriminate].
    intros H. inversion H; subst.
    apply (span_digits_draw_id rest _ rest' Hs). reflexivity. }
  induction s as [|c s IH].
  - cbn [search_client_draw].
    destruct (match_client_draw_here "") eqn:Hm; [|discriminate].
    intros H. inversion H; subst. apply (Hhere _ Hm).
  - cbn [search_client_draw].
    destruct (match_client_draw_here (String c s)) eqn:Hm; [|exact IH].
    intros H. inversion H; subst. apply (Hhere _ Hm).
Qed.

Lemma match_classes_cons_inv p cls s m rest :
  match_classes (p :: cls) s = Some (m, rest) ->
  exists c s' m',
    s = String c s' /\ p c = true
    /\ match_classes cls s' = Some (m', rest) /\ m = String c m'.
Proof.
  cbn [match_classes]. destruct s as [|c s']; [discriminate|].
  destruct (p c) eqn:Hp; [|discriminate].
  destruct (match_classes cls s') as [[m' rest']|] eqn:Hm; [|discriminate].
  intros H. inversion H; subst. exists c, s', m'.
  repeat split; solve [reflexivity | assumption].
Qed.

Lemma is_char_eq a c : is_char a c = true -> c = a.
Proof. unfold is_char. intros H. apply Ascii.eqb_eq in H. congruence. Qed.

Lemma digit_value_range c :
  isdecimal_char c = true -> (0 <= digit_value c <= 9)%Z.
Proof.
  unfold isdecimal_char, digit_value. intros H.
  apply andb_true_iff in H as [H1 H2].
  apply N.leb_le in H1, H2. lia.
Qed.

Lemma digit_char_of c n :
  isdecimal_char c = true -> (n mod 10 = digit_value c)%Z ->
  digit_char n = c.
Proof.
  intros Hc Hn. pose proof (digit_value_range c Hc) as Hr.
  unfold digit_char. rewrite Hn. unfold digit_value in *.
  replace (48 + (Z.of_N (ord c) - 48))%Z with (Z.of_N (ord c)) by lia.
  rewrite N2Z.id. apply ascii_N_embedding.
Qed.

(** The shape of a text the date pattern captures. *)
Lemma date_text_inv s m rest :
  match_classes date_classes s = Some (m, rest) ->
  exists d1 d2 m1 m2 y1 y2 y3 y4,
    m = String d1 (String d2 (String "/" (String m1 (String m2 (String "/"
          (String y1 (String y2 (String y3 (String y4 "")))))))))
    /\ s = m +:+ rest
    /\ isdecimal_char d1 = true /\ isdecimal_char d2 = true
    /\ isdecimal_char m1 = true /\ isdecimal_char m2 = true
    /\ isdecimal_char y1 = true /\ isdecimal_char y2 = true
    /\ isdecimal_char y3 = true /\ isdecimal_char y4 = true.
Proof.
  unfold date_classes. intros H.
  repeat match goal with
  | H : match_classes (_ :: _) _ = Some _ |- _ =>
      apply match_classes_cons_inv in H as (? & ? & ? & -> & ? & H & ->)
  end.
  cbn [match_classes] in H. inversion H; subst.
  repeat match goal with
  | H : is_char _ _ = true |- _ => apply is_char_eq in H; subst
  end.
  eexists _, _, _, _, _, _, _, _. split; [reflexivity|].
  split; [reflexivity|]. auto 10.
Qed.

Lemma digit_value_zero : digit_value "0" = 0%Z.
Proof. reflexivity. Qed.

Lemma digit_nonzero c :
  isdecimal_char c = true -> is_char "0" c = false ->
  (1 <= digit_value c)%Z.
Proof.
  intros Hc Hz. pose proof (digit_value_range c Hc) as Hr.
  destruct (Z.eq_dec (digit_value c) 0%Z) as [H0|H0]; [|lia].
  assert (digit_char 0%Z = c) as Heq
    by (apply digit_char_of; [exact Hc|rewrite H0; reflexivity]).
  rewrite <- Heq in Hz. discriminate.
Qed.

Ltac ltb_cases :=
  match goal with
  | |- context [(?a <? ?b)%Z] =>
      destruct (Z.ltb_spec a b); [try lia|try lia]
  end.

(** [%Y] writes the year of four header digits as those digits without
    their leading zeros. *)
Lemma year_text_lstrip y1 y2 y3 y4 :
  isdecimal_char y1 = true -> isdecimal_char y2 = true ->
  isdecimal_char y3 = true -> isdecimal_char y4 = true ->
  (1 <= 10 * (10 * (10 * (10 * 0 + digit_value y1) + digit_value y2)
               + digit_value y3) + digit_value y4)%Z ->
  year_text (10 * (10 * (10 * (10 * 0 + digit_value y1) + digit_value y2)
                   + digit_value y3) + digit_value y4)
  = lstrip_zeros (String y1 (String y2 (String y3 (String y4 "")))).
Proof.
  intros H1 H2 H3 H4 Hy.
  pose proof (digit_value_range _ H1). pose proof (digit_value_range _ H2).
  pose proof (digit_value_range _ H3). pose proof (digit_value_range _ H4).
  cbn [lstrip_zeros]. unfold year_text, zfill4, zfill2.
  destruct (is_char "0" y1) eqn:E1;
    [apply is_char_eq in E1; subst y1; rewrite digit_value_zero in *
    |apply (digit_nonzero _ H1) in E1].
  2: { repeat ltb_cases.
       repeat f_equal; apply digit_char_of; try assumption;
         Z.div_mod_to_equations; lia. }
  destruct (is_char "0" y2) eqn:E2;
    [apply is_char_eq in E2; subst y2; rewrite digit_value_zero in *
    |apply (digit_nonzero _ H2) in E2].
  2: { repeat ltb_cases.
       repeat f_equal; apply digit_char_of; try assumption;
         Z.div_mod_to_equations; lia. }
  destruct (is_char "0" y3) eqn:E3;
    [apply is_char_eq in E3; subst y3; rewrite digit_value_zero in *
    |apply (digit_nonzero _ H3) in E3].
  2: { repeat ltb_cases.
       repeat f_equal; apply digit_char_of; try assumption;
         Z.div_mod_to_equations; lia. }
  destruct (is_char "0" y4) eqn:E4;
    [apply is_char_eq in E4; subst y4; rewrite digit_value_zero in *; lia
    |apply (digit_nonzero _ H4) in E4].
  repeat ltb_cases.
  f_equal. apply digit_char_of; [assumption|].
  Z.div_mod_to_equations; lia.
Qed.

(** [strptime] followed by [strftime] moves the digits: dd/mm/yyyy
    becomes the year without its leading zeros, then -mm-dd; with a year
    from 1000 on that is yyyy-mm-dd, digit for digit. The day named is
    on the calendar. *)
Lemma strptime_strftime s d :
  strptime s = Ret d ->
  strftime d = date_of s
  /\ year d = dmy_year s
  /\ ((1000 <= dmy_year s)%Z -> date_of s = iso_of s)
  /\ is_iso_date (iso_of s) = true
  /\ calendar_day d = true.
Proof.
  unfold strptime.
  destruct (match_classes date_classes s) as [[m rest]|] eqn:Hm;
    [|discriminate].
  destruct rest; [|discriminate].
  apply date_text_inv in Hm
    as (d1 & d2 & m1 & m2 & y1 & y2 & y3 & y4 & -> & Hs
        & Hd1 & Hd2 & Hm1 & Hm2 & Hy1 & Hy2 & Hy3 & Hy4).
  cbv [String.append] in Hs. subst s.
  unfold dmy_year, date_of.
  cbn [substring decimal_value].
  pose proof (digit_value_range _ Hd1). pose proof (digit_value_range _ Hd2).
  pose proof (digit_value_range _ Hm1). pose proof (digit_value_range _ Hm2).
  pose proof (digit_value_range _ Hy1). pose proof (digit_value_range _ Hy2).
  pose proof (digit_value_range _ Hy3). pose proof (digit_value_range _ Hy4).
  pose proof (year_text_lstrip y1 y2 y3 y4 Hy1 Hy2 Hy3 Hy4) as Hyear.
  set (dv := (10 * (10 * 0 + digit_value d1) + digit_value d2)%Z).
  set (mv := (10 * (10 * 0 + digit_value m1) + digit_value m2)%Z).
  set (yv := (10 * (10 * (10 * (10 * 0 + digit_value y1) + digit_value y2)
                    + digit_value y3) + digit_value y4)%Z) in *.
  destruct ((1 <=? dv) && (dv <=? 31) && (1 <=? mv) && (mv <=? 12))%Z
    eqn:Hrange; [|discriminate].
  destruct (yv <? 1)%Z eqn:Hy; [discriminate|].
  destruct (dv <=? days_in_month yv mv)%Z eqn:Hday; [|discriminate].
  intros Hret. inversion Hret; subst d. clear Hret.
  repeat (apply andb_true_iff in Hrange as [Hrange ?]).
  apply Z.ltb_ge in Hy.
  split; [|split; [|split; [|split]]].
  - unfold strftime. cbn [year month day]. rewrite (Hyear Hy).
    unfold zfill2. f_equal.
    cbv [String.append]. repeat f_equal; apply digit_char_of;
      try assumption; unfold dv, mv; Z.div_mod_to_equations; lia.
  - reflexivity.
  - intros Hbig. unfold iso_of. cbn [substring]. f_equal.
    cbn [lstrip_zeros].
    destruct (is_char "0" y1) eqn:E1; [|reflexivity].
    apply is_char_eq in E1. subst y1. unfold yv in Hbig.
    rewrite digit_value_zero in Hbig. lia.
  - unfold iso_of, is_iso_date, iso_classes.
    cbv [substring String.append match_classes].
    rewrite Hy1, Hy2, Hy3, Hy4, Hm1, Hm2, Hd1, Hd2. reflexivity.
  - unfold calendar_day. cbn [year month day].
    rewrite !andb_true_iff. repeat split; try assumption.
    + apply Z.leb_le. exact Hy.
    + apply Z.leb_le. unfold yv. lia.
Qed.

Lemma parse_header_inv soup draw_id iso :
  parse_header soup = Ret (Some (draw_id, iso)) ->
  exists h5 dmy dt,
    select_one sel_h5 soup = Some h5
    /\ search_draw_id (get_text h5) = Some draw_id
    /\ search_date (get_text h5) = Some dmy
    /\ strptime dmy = Ret dt
    /\ iso = strftime dt.
Proof.
  unfold parse_header.
  destruct (select_one sel_h5 soup) as [h5|]; [|discriminate].
  destruct (search_draw_id (get_text h5)) as [i|] eqn:Hi; [|discriminate].
  destruct (search_date (get_text h5)) as [dmy|] eqn:Hd; [|discriminate].
  destruct (strptime dmy) as [dt|e] eqn:Hdt; simpl; [|discriminate].
  intros H. inversion H; subst. exists h5, dmy, dt.
  repeat split; assumption.
Qed.

(** What a record the dispatcher returns is made of. *)
Lemma parse_response_inv config now (soup : Node) r :
  _parse_response config now soup = Ret (Some r) ->
  parse_header soup = Ret (Some (pd_id r, pd_date r))
  /\ pd_process_time r = now
  /\ pd_prev_draw_id r = find_prev_draw_id soup
  /\ (if bool_decide (product_type config = "max3d") then
        let numbers := omap triplet_of (select sel_day_so_ket_qua_v2 soup) in
        pd_result r = Triplets numbers /\ (2 <= len numbers)%Z
      else
        exists div numbers,
          result_div soup = Some div
          /\ collect_numbers (select sel_span div) = Ret numbers
          /\ (numbers_to_pick config <= len numbers)%Z
          /\ pd_result r
             = Numbers (slice_to (numbers_to_pick config) numbers)).
Proof.
  unfold _parse_response.
  rewrite parse_max3d_markup, parse_power_markup.
  unfold parse_max3d_body, parse_power_body.
  case_bool_decide.
  - destruct (parse_header soup) as [[[d f]|]|e]; simpl; try discriminate.
    destruct (Z.ltb_spec (len (omap triplet_of
                (select sel_day_so_ket_qua_v2 soup))) 2); [discriminate|].
    intros Hr. inversion Hr; subst. simpl. repeat split. assumption.
  - destruct (parse_header soup) as [[[d f]|]|e]; simpl; try discriminate.
    destruct (result_div soup) as [div|]; simpl; try discriminate.
    destruct (collect_numbers _) as [ns|e] eqn:Hc; simpl; try discriminate.
    destruct (Z.ltb_spec (len ns) (numbers_to_pick config)); [discriminate|].
    intros Hr. inversion Hr; subst. simpl.
    repeat split. exists div, ns. repeat split; assumption.
Qed.

Lemma parse_response_header config now (soup : Node) r :
  _parse_response config now soup = Ret (Some r) ->
  exists h5 dmy,
    select_one sel_h5 soup = Some h5
    /\ search_draw_id (get_text h5) = Some (pd_id r)
    /\ search_date (get_text h5) = Some dmy
    /\ pd_date r = date_of dmy
    /\ ((1000 <= dmy_year dmy)%Z ->
        pd_date r = iso_of dmy /\ is_iso_date (pd_date r) = true).
Proof.
  intros Hr. apply parse_response_inv in Hr as (Hh & _).
  apply parse_header_inv in Hh as (h5 & dmy & dt & H5 & Hid & Hd & Hdt & Hiso).
  apply strptime_strftime in Hdt as (Hf & _ & Hbig & Hshape & _).
  exists h5, dmy. rewrite Hiso, Hf.
  split; [exact H5|]. split; [exact Hid|]. split; [exact Hd|].
  split; [reflexivity|].
  intros Hy. rewrite (Hbig Hy). split; [reflexivity|exact Hshape].
Qed.



Lemma parse_response_ids config now soup r :
  _parse_response config now soup = Ret (Some r) ->
  is_draw_id (pd_id r) = true
  /\ forall prev, pd_prev_draw_id r = Some prev -> is_draw_id prev = true.
Proof.
  destruct soup as [soup|e];
    [|intros Hr; exfalso; exact (parse_response_unreadable _ _ _ _ Hr)].
  intros Hr. apply parse_response_inv in Hr as (Hh & _ & Hprev & _).
  apply parse_header_inv in Hh as (h5 & dmy & dt & _ & Hid & _).
  split; [apply (search_draw_id_is_draw_id _ _ Hid)|].
  intros prev Hp. rewrite Hprev in Hp. unfold find_prev_draw_id in Hp.
  destruct (select_one sel_btn_chuyendulieu_left soup) as [a|];
    [|discriminate].
  apply (search_client_draw_is_draw_id _ _ Hp).
Qed.

(** X2. The id of a record, and the previous-draw id when the fragment
    has one, are non-empty runs of decimal digits: the walker never
    follows an empty or non-numeric link. *)
Theorem parsed_ids_are_digits config now soup r :
  _parse_response config now soup = Ret (Some r) ->
  is_draw_id (pd_id r) = true
  /\ forall prev, pd_prev_draw_id r = Some prev -> is_draw_id prev = true.
Proof.
  destruct soup as [soup|e];
    [|intros Hr; exfalso; exact (parse_response_unreadable _ _ _ _ Hr)].
  intros Hr. apply parse_response_inv in Hr as (Hh & _ & Hprev & _).
  apply parse_header_inv in Hh as (h5 & dmy & dt & _ & Hid & _).
  split; [apply (search_draw_id_is_draw_id _ _ Hid)|].
  intros prev Hp. rewrite Hprev in Hp. unfold find_prev_draw_id in Hp.
  destruct (select_one sel_btn_chuyendulieu_left soup) as [a|];
    [|discriminate].
  apply (search_client_draw_is_draw_id _ _ Hp).
Qed.

Lemma parsed_ids_are_digits_witness :
  is_draw_id "01458" = true
  /\ forall prev, Some "01457" = Some prev -> is_draw_id prev = true.
Proof.
  apply (parsed_ids_are_digits POWER_655_CONFIG "T"
           (Fixtures.power_page "01458" "14/01/2026" Fixtures.seven
              (Some "01457"))
           {| pd_date := "2026-01-14"; pd_id := "01458";
              pd_result := Numbers [5; 12; 23; 34; 45; 50]%Z;
              pd_process_time := "T"; pd_prev_draw_id := Some "01457" |}).
  reflexivity.
Defined.

Lemma iso_text_inv s :
  is_iso_date s = true ->
  exists y1 y2 y3 y4 m1 m2 d1 d2,
    s = String y1 (String y2 (String y3 (String y4 (String "-"
          (String m1 (String m2 (String "-" (String d1 (String d2 "")))))))))
    /\ isdecimal_char y1 = true /\ isdecimal_char y2 = true
    /\ isdecimal_char y3 = true /\ isdecimal_char y4 = true
    /\ isdecimal_char m1 = true /\ isdecimal_char m2 = true
    /\ isdecimal_char d1 = true /\ isdecimal_char d2 = true.
Proof.
  unfold is_iso_date, iso_classes.
  destruct (match_classes _ s) as [[m rest]|] eqn:H; [|discriminate].
  destruct rest; [|discriminate]. intros _.
  repeat match goal with
  | H : match_classes (_ :: _) _ = Some _ |- _ =>
      apply match_classes_cons_inv in H as (? & ? & ? & -> & ? & H & ->)
  end.
  cbn [match_classes] in H. inversion H; subst.
  repeat match goal with
  | H : is_char _ _ = true |- _ => apply is_char_eq in H; subst
  end.
  eexists _, _, _, _, _, _, _, _. split; [reflexivity|].
  repeat split; assumption.
Qed.

(** On texts of the ISO shape the order of strings is the order of the
    days they name. *)
Lemma iso_leb_day_number s1 s2 :
  is_iso_date s1 = true -> is_iso_date s2 = true ->
  String.leb s1 s2 = true <-> (iso_day_number s1 <= iso_day_number s2)%Z.
Proof.
  intros H1 H2.
  apply iso_text_inv in H1
    as (a1 & a2 & a3 & a4 & a5 & a6 & a7 & a8 & -> & Ha).
  apply iso_text_inv in H2
    as (b1 & b2 & b3 & b4 & b5 & b6 & b7 & b8 & -> & Hb).
  repeat match goal with
  | H : _ /\ _ |- _ => destruct H
  end.
  repeat match goal with
  | H : isdecimal_char _ = true |- _ => apply digit_value_range in H
  end.
  unfold iso_day_number, String.leb.
  cbv [substring]. cbn [String.compare decimal_value].
  rewrite !ascii_compare_N. unfold digit_value, ord in *.
  repeat match goal with
  | |- context [N.compare ?a ?b] => destruct (N.compare_spec a b)
  end;
  split; intros; try discriminate; try reflexivity; lia.
Qed.

(** X3. For the dates the parser writes from headers whose year is 1000
    or later, comparing the strings, as the sort of [update_data] does,
    is comparing the days: one date string is before or equal to another
    exactly when its day is. *)
Theorem parsed_dates_order_by_day config1 now1 (soup1 : Node) r1 dmy1
    config2 now2 (soup2 : Node) r2 dmy2 :
  _parse_response config1 now1 soup1 = Ret (Some r1) ->
  _parse_response config2 now2 soup2 = Ret (Some r2) ->
  header_dmy soup1 = Some dmy1 -> header_dmy soup2 = Some dmy2 ->
  (1000 <= dmy_year dmy1)%Z -> (1000 <= dmy_year dmy2)%Z ->
  String.leb (pd_date r1) (pd_date r2) = true
  <-> (iso_day_number (pd_date r1) <= iso_day_number (pd_date r2))%Z.
Proof.
  intros Hr1 Hr2 Hh1 Hh2 Hy1 Hy2.
  apply parse_response_header in Hr1 as (h1 & d1 & Hs1 & _ & Hd1 & _ & Hi1).
  apply parse_response_header in Hr2 as (h2 & d2 & Hs2 & _ & Hd2 & _ & Hi2).
  unfold header_dmy in Hh1, Hh2.
  rewrite Hs1, Hd1 in Hh1. rewrite Hs2, Hd2 in Hh2.
  inversion Hh1; subst d1. inversion Hh2; subst d2.
  apply iso_leb_day_number; [apply (Hi1 Hy1)|apply (Hi2 Hy2)].
Qed.

Lemma parsed_dates_order_by_day_witness :
  String.leb "2025-12-31" "2026-01-14" = true
  <-> (iso_day_number "2025-12-31" <= iso_day_number "2026-01-14")%Z.
Proof.
  apply (parsed_dates_order_by_day
           POWER_655_CONFIG "T"
           (Fixtures.power_page "01452" "31/12/2025" Fixtures.six None)
           {| pd_date := "2025-12-31"; pd_id := "01452";
              pd_result := Numbers [5; 12; 23; 34; 45; 50]%Z;
              pd_process_time := "T"; pd_prev_draw_id := None |}
           "31/12/2025"
           POWER_655_CONFIG "T"
           (Fixtures.power_page "01458" "14/01/2026" Fixtures.six None)
           {| pd_date := "2026-01-14"; pd_id := "01458";
              pd_result := Numbers [5; 12; 23; 34; 45; 50]%Z;
              pd_process_time := "T"; pd_prev_draw_id := None |}
           "14/01/2026");
    solve [reflexivity | vm_compute; discriminate].
Defined.

(* ================================================================== *)
(** ** What a record holds *)
(* ================================================================== *)

Lemma decimal_value_nonneg s :
  forall acc, (0 <= acc)%Z -> str_all isdecimal_char s = true ->
  (0 <= decimal_value acc s)%Z.
Proof.
  induction s as [|c s IH]; simpl; intros acc Hacc Hall; [exact Hacc|].
  apply andb_true_iff in Hall as [Hc Hall].
  apply IH; [|exact Hall].
  pose proof (digit_value_range c Hc). lia.
Qed.

Lemma int_nonneg t n : int t = Ret n -> (0 <= n)%Z.
Proof.
  unfold int.
  destruct (nonempty t && str_all isdecimal_char t) eqn:H; [|discriminate].
  destruct (_ <=? _)%nat; [|discriminate].
  intros Hn. inversion Hn; subst.
  apply andb_true_iff in H as [_ H].
  apply decimal_value_nonneg; [lia|exact H].
Qed.

Lemma collect_numbers_nonneg spans ns :
  collect_numbers spans = Ret ns -> Forall (fun n => (0 <= n)%Z) ns.
Proof.
  revert ns. induction spans as [|span rest IH]; simpl; intros ns H.
  - inversion H. constructor.
  - destruct (isdigit (strip (get_text span))); [|apply IH, H].
    destruct (int (strip (get_text span))) as [n|e] eqn:Hn; simpl in H;
      [|discriminate].
    destruct (collect_numbers rest) as [ns'|e]; simpl in H; [|discriminate].
    inversion H; subst. constructor; [apply (int_nonneg _ _ Hn)|].
    apply IH. reflexivity.
Qed.

(** X4. Every record the numeric parser returns holds integers that are
    not negative; for a pick-count that is not negative it holds exactly
    pick-count of them, whatever the fragment. *)
Theorem power_record_numbers config now soup r :
  _parse_power_response config now soup = Ret (Some r) ->
  exists ns,
    pd_result r = Numbers ns
    /\ Forall (fun n => (0 <= n)%Z) ns
    /\ ((0 <= numbers_to_pick config)%Z -> len ns = numbers_to_pick config).
Proof.
  destruct soup as [soup|e]; [|discriminate].
  rewrite parse_power_markup. unfold parse_power_body.
  destruct (parse_header soup) as [[[d f]|]|e]; simpl; try discriminate.
  destruct (result_div soup) as [div|]; simpl; try discriminate.
  destruct (collect_numbers _) as [ns|e] eqn:Hc; simpl; try discriminate.
  destruct (Z.ltb_spec (len ns) (numbers_to_pick config)); [discriminate|].
  intros Hr. inversion Hr; subst. simpl.
  exists (slice_to (numbers_to_pick config) ns).
  split; [reflexivity|].
  apply collect_numbers_nonneg in Hc. unfold slice_to, len in *.
  split.
  - destruct (0 <=? numbers_to_pick config)%Z; apply Forall_take, Hc.
  - intros Hpos. destruct (Z.leb_spec 0 (numbers_to_pick config)); [|lia].
    rewrite length_take. lia.
Qed.

Lemma power_record_numbers_witness :
  exists ns,
    Numbers [5; 12; 23; 34; 45; 50]%Z = Numbers ns
    /\ Forall (fun n => (0 <= n)%Z) ns
    /\ ((0 <= 6)%Z -> len ns = 6%Z).
Proof.
  apply (power_record_numbers POWER_655_CONFIG "T"
           (Fixtures.power_page "01458" "14/01/2026" Fixtures.seven None)
           {| pd_date := "2026-01-14"; pd_id := "01458";
              pd_result := Numbers [5; 12; 23; 34; 45; 50]%Z;
              pd_process_time := "T"; pd_prev_draw_id := None |}).
  reflexivity.
Defined.

Lemma append_cons c s t : String c s +:+ t = String c (s +:+ t).
Proof. reflexivity. Qed.

Lemma append_nil s : "" +:+ s = s.
Proof. reflexivity. Qed.

Lemma str_all_append p s t :
  str_all p (s +:+ t) = str_all p s && str_all p t.
Proof.
  induction s as [|c s IH]; [reflexivity|].
  rewrite append_cons. simpl. rewrite IH. apply andb_assoc.
Qed.

Lemma length_append_str s t :
  String.length (s +:+ t) = (String.length s + String.length t)%nat.
Proof.
  induction s as [|c s IH]; [reflexivity|].
  rewrite append_cons. simpl. rewrite IH. reflexivity.
Qed.

Lemma isdigit_inv t :
  isdigit t = true ->
  (1 <= String.length t)%nat /\ str_all isdigit_char t = true.
Proof.
  unfold isdigit. intros H. apply andb_true_iff in H as [Hn Hall].
  split; [|exact Hall]. destruct t; [discriminate|simpl; lia].
Qed.

(** What one result div contributes: three texts that pass [isdigit],
    joined. *)
Lemma triplet_of_Some div t :
  triplet_of div = Some t ->
  (3 <= String.length t)%nat /\ str_all isdigit_char t = true.
Proof.
  unfold triplet_of.
  destruct (digits_of div) as [|a [|b [|c [|d l]]]]; simpl;
    try discriminate;
    try (destruct (forallb isdigit _ && _); discriminate);
    try (rewrite andb_false_r; discriminate).
  destruct (isdigit a) eqn:Ha; [|discriminate].
  destruct (isdigit b) eqn:Hb; [|discriminate].
  destruct (isdigit c) eqn:Hc; [|discriminate].
  simpl. intros H. inversion H; subst.
  apply isdigit_inv in Ha as [La Da], Hb as [Lb Db], Hc as [Lc Dc].
  rewrite !append_nil, !length_append_str, !str_all_append.
  rewrite Da, Db, Dc. split; [lia|reflexivity].
Qed.

(** X5. Every record the triplet parser returns holds two numbers at
    least, each a string of three characters or more, digits all. *)
Theorem max3d_record_triplets now soup r :
  _parse_max3d_response now soup = Ret (Some r) ->
  exists ts,
    pd_result r = Triplets ts
    /\ (2 <= len ts)%Z
    /\ Forall (fun t => (3 <= String.length t)%nat
                        /\ str_all isdigit_char t = true) ts.
Proof.
  destruct soup as [soup|e]; [|discriminate].
  rewrite parse_max3d_markup. unfold parse_max3d_body.
  destruct (parse_header soup) as [[[d f]|]|e]; simpl; try discriminate.
  set (numbers := omap triplet_of _).
  destruct (Z.ltb_spec (len numbers) 2); [discriminate|].
  intros Hr. inversion Hr; subst. simpl.
  exists numbers. split; [reflexivity|]. split; [assumption|].
  apply Forall_forall. intros t Ht.
  unfold numbers in Ht.
  apply list_elem_of_omap in Ht as (div & _ & Hdiv).
  apply (triplet_of_Some div t Hdiv).
Qed.

Lemma max3d_record_triplets_witness :
  exists ts,
    Triplets ["134"; "007"] = Triplets ts
    /\ (2 <= len ts)%Z
    /\ Forall (fun t => (3 <= String.length t)%nat
                        /\ str_all isdigit_char t = true) ts.
Proof.
  apply (max3d_record_triplets "T"
           (Fixtures.max3d_page "00123" "14/01/2026"
              [["1"; "3"; "4"]; ["0"; "0"; "7"]; ["1"; "2"]] None)
           {| pd_date := "2026-01-14"; pd_id := "00123";
              pd_result := Triplets ["134"; "007"];
              pd_process_time := "T"; pd_prev_draw_id := None |}).
  reflexivity.
Defined.

(* ================================================================== *)
(** ** Requests *)
(* ================================================================== *)

(** X6. [fetch_draw] returns whatever the remote does. It sends one
    request, to the endpoint of the crawler, with its key and the draw
    id asked for, and leaves the files alone. It returns what the parser
    makes of the fragment when the reply carries one, and [None] on a
    failed or empty reply. *)
Theorem fetch_draw_contract self draw_id w :
  exists r w' req,
    fetch_draw self draw_id w = (Ret r, w')
    /\ sent w' = (sent w ++ [req])%list
    /\ req_endpoint req = endpoint self
    /\ Key (req_body req) = key self
    /\ DrawId (req_body req) = draw_id
    /\ files w' = files w /\ writes w' = writes w
    /\ match site w (sent w) req with
       | Html soup => _parse_response (config self) (now w') soup = Ret r
       | _ => r = None
       end.
Proof.
  rewrite fetch_draw_eq. unfold fetched.
  exists (match site w (sent w) (request_for self draw_id) with
          | Html soup =>
              match _parse_response (config self)
                      (now (add_sent [request_for self draw_id] w)) soup with
              | Ret r => r
              | Raise _ => None
              end
          | _ => None
          end),
    (add_sent [request_for self draw_id] w), (request_for self draw_id).
  split.
  - destruct (site w (sent w) (request_for self draw_id)) as [e| |soup];
      try reflexivity.
    destruct (parse_response_returns (config self)
                (now (add_sent [request_for self draw_id] w)) soup)
      as [r Hr].
    rewrite Hr. reflexivity.
  - repeat split.
    destruct (site w (sent w) (request_for self draw_id)) as [e| |soup];
      try reflexivity.
    destruct (parse_response_returns (config self)
                (now (add_sent [request_for self draw_id] w)) soup)
      as [r Hr].
    rewrite Hr. reflexivity.
Qed.

Lemma fetched_prev_is_draw_id self draw_id w r prev :
  fetched self draw_id w = Ret (Some r) ->
  pd_prev_draw_id r = Some prev -> is_draw_id prev = true.
Proof.
  unfold fetched.
  destruct (site w (sent w) (request_for self draw_id)) as [e| |soup];
    try discriminate.
  destruct (parse_response_returns (config self)
              (now (add_sent [request_for self draw_id] w)) soup)
    as [r' Hr].
  rewrite Hr. simpl. intros H. inversion H; subst.
  apply (parse_response_ids _ _ _ _ Hr).
Qed.

(** The requests of one run of the loop: they ask for [draw_id] first and
    for draw ids read off links after that; there are as many as
    records, or one more. *)
Lemma crawl_loop_requests self existing_ids n :
  forall draw_id all_data w,
  exists out ds,
    crawl_loop self existing_ids n draw_id all_data w
    = (Ret (all_data ++ out)%list, add_sent (request_for self <$> ds) w)
    /\ (length ds <= n)%nat
    /\ (length out <= length ds <= length out + 1)%nat
    /\ (ds = []
        \/ exists rest,
             ds = draw_id :: rest
             /\ Forall (fun d => is_draw_id d = true) rest).
Proof.
  induction n as [|n IH]; intros draw_id all_data w.
  - exists [], []. simpl. unfold ret.
    rewrite app_nil_r, add_sent_nil. repeat split; auto.
  - cbn [crawl_loop]. unfold ebind at 1. rewrite fetch_draw_eq.
    assert (Hstop : exists out ds,
      (Ret all_data, add_sent [request_for self draw_id] w)
      = (Ret (all_data ++ out)%list, add_sent (request_for self <$> ds) w)
      /\ (length ds <= S n)%nat
      /\ (length out <= length ds <= length out + 1)%nat
      /\ (ds = []
          \/ exists rest,
               ds = draw_id :: rest
               /\ Forall (fun d => is_draw_id d = true) rest)).
    { exists [], [draw_id]. rewrite app_nil_r. simpl.
      repeat split; try lia. right. exists []. auto. }
    assert (Hone : forall record, exists out ds,
      (Ret (all_data ++ [record])%list,
       add_sent [request_for self draw_id] w)
      = (Ret (all_data ++ out)%list, add_sent (request_for self <$> ds) w)
      /\ (length ds <= S n)%nat
      /\ (length out <= length ds <= length out + 1)%nat
      /\ (ds = []
          \/ exists rest,
               ds = draw_id :: rest
               /\ Forall (fun d => is_draw_id d = true) rest)).
    { intros record. exists [record], [draw_id]. simpl.
      repeat split; try lia. right. exists []. auto. }
    destruct (fetched self draw_id w) as [[r|]|e] eqn:Hf.
    + case_bool_decide as Hknown; [exact Hstop|].
      cbn [pop_prev_draw_id].
      destruct (pd_prev_draw_id r) as [prev|] eqn:Hprev; [|apply Hone].
      destruct (nonempty prev); [|apply Hone].
      destruct (IH prev (all_data ++ [(pop_prev_draw_id r).2])%list
                  (add_sent [request_for self draw_id] w))
        as (out & ds & Heq & Hn & Hlen & Hds).
      exists ((pop_prev_draw_id r).2 :: out), (draw_id :: ds).
      cbn [pop_prev_draw_id snd] in *. rewrite Heq.
      rewrite <- app_assoc, add_sent_app. simpl.
      repeat split; try lia.
      right. exists ds. split; [reflexivity|].
      destruct Hds as [->|(rest & -> & Hrest)]; [constructor|].
      constructor; [|exact Hrest].
      apply (fetched_prev_is_draw_id _ _ _ _ _ Hf Hprev).
    + exact Hstop.
    + pose proof (fetch_draw_returns self draw_id w) as [r Hr].
      rewrite fetch_draw_eq, Hf in Hr. discriminate.
Qed.

(** X7. Every request of a crawl goes to the endpoint of the crawler
    with its key. The first asks for the latest draw, with an empty draw
    id; each one after it asks for a draw id made of decimal digits. *)
Theorem crawl_requests self max_records existing_ids w :
  exists out ds w',
    crawl self max_records existing_ids w = (Ret out, w')
    /\ sent w' = (sent w ++ (request_for self <$> ds))%list
    /\ (ds = []
        \/ exists rest,
             ds = "" :: rest
             /\ Forall (fun d => is_draw_id d = true) rest).
Proof.
  unfold crawl.
  destruct (crawl_loop_requests self (default ∅ existing_ids)
              (range_len max_records) "" [] w)
    as (out & ds & Heq & _ & _ & Hds).
  exists out, ds, (add_sent (request_for self <$> ds) w).
  split; [exact Heq|]. split; [reflexivity|exact Hds].
Qed.

(** X8. A crawl sends one request per record it returns, and at most one
    more: the one whose answer made it stop. *)
Theorem crawl_spare_request self max_records existing_ids w :
  exists out reqs,
    crawl self max_records existing_ids w = (Ret out, add_sent reqs w)
    /\ (length out <= length reqs <= length out + 1)%nat.
Proof.
  unfold crawl.
  destruct (crawl_loop_requests self (default ∅ existing_ids)
              (range_len max_records) "" [] w)
    as (out & ds & Heq & _ & Hlen & _).
  exists out, (request_for self <$> ds).
  split; [exact Heq|]. rewrite length_fmap. exact Hlen.
Qed.

(** X9. With a page count of zero or less, [update_data] for a product
    of the table whose store can be read (the file is absent or holds a
    line) returns 0 once the store is read: no request goes out, and
    the world is what it was. *)
Theorem update_no_budget product pages config w :
  PRODUCTS !! product = Some config ->
  readable config w ->
  (pages <= 0)%Z ->
  update_data product pages w = (Ret 0%Z, w).
Proof.
  intros Hp Hr Hpages.
  rewrite (update_data_eq product pages config w Hp Hr [] w); [reflexivity|].
  unfold crawl, range_len.
  replace (Z.to_nat (pages * 10)) with 0%nat by lia.
  reflexivity.
Qed.

Lemma update_no_budget_witness :
  update_data "655" 0 Scenarios.scenario_B = (Ret 0%Z, Scenarios.scenario_B).
Proof.
  apply (update_no_budget "655" 0 POWER_655_CONFIG Scenarios.scenario_B).
  - reflexivity.
  - vm_compute. discriminate.
  - lia.
Defined.

(* ================================================================== *)
(** ** What an update keeps *)
(* ================================================================== *)

Lemma insert_by_sublist {A} (key : A -> string) x l :
  l `sublist_of` insert_by key x l.
Proof.
  induction l as [|y l IH]; simpl; [apply sublist_nil_l|].
  destruct (String.leb (key x) (key y)).
  - apply sublist_cons. reflexivity.
  - apply sublist_skip, IH.
Qed.

(** Inserting [x] in front of a list whose elements are all at or after
    it leaves them behind [x], in their order. *)
Lemma insert_by_behind {A} (key : A -> string) x s :
  forall l,
  l `sublist_of` s ->
  Forall (fun y => key_le key x y) l ->
  (x :: l) `sublist_of` insert_by key x s.
Proof.
  induction s as [|y s IH]; intros l Hsub Hle.
  - apply sublist_nil_r in Hsub. subst. reflexivity.
  - simpl. destruct (String.leb (key x) (key y)) eqn:Hxy.
    + apply sublist_skip, Hsub.
    + apply sublist_cons_r in Hsub as [Hsub|(l' & -> & Hsub)].
      * apply sublist_cons, IH; assumption.
      * inversion Hle as [|? ? Hy _]; subst.
        unfold key_le in Hy. congruence.
Qed.

(** A sorted list is kept, in its order, when it is sorted again with
    more elements after it: the sort is stable. *)
Lemma sort_by_sorted_prefix {A} (key : A -> string) l l2 :
  StronglySorted (key_le key) l ->
  l `sublist_of` sort_by key (l ++ l2)%list.
Proof.
  induction 1 as [|x l Hs IH Hx]; simpl; [apply sublist_nil_l|].
  apply insert_by_behind; assumption.
Qed.

(** A sorted list followed by elements that are all at or after its own
    stays in front, and only what follows is sorted. *)
Lemma sort_by_app_sorted {A} (key : A -> string) l l2 :
  StronglySorted (key_le key) l ->
  Forall (fun a => Forall (fun b => key_le key a b) l2) l ->
  sort_by key (l ++ l2)%list = (l ++ sort_by key l2)%list.
Proof.
  induction 1 as [|x l Hs IH Hx]; intros Hall; simpl; [reflexivity|].
  inversion Hall as [|? ? Hx2 Hl2]; subst.
  rewrite (IH Hl2).
  assert (Hx2' : Forall (fun b => key_le key x b) (sort_by key l2)).
  { rewrite sort_by_Permutation. exact Hx2. }
  destruct l as [|y l]; simpl.
  - destruct (sort_by key l2) as [|b s]; simpl; [reflexivity|].
    inversion Hx2' as [|? ? Hb _]; subst.
    unfold key_le in Hb. rewrite Hb. reflexivity.
  - inversion Hx as [|? ? Hy _]; subst.
    unfold key_le in Hy. rewrite Hy. reflexivity.
Qed.

Lemma ids_of_not_elem r records :
  id r ∉ ids_of records -> id r ∉ id <$> records.
Proof.
  unfold ids_of. intros H Hin. apply H, elem_of_list_to_set, Hin.
Qed.

(** X10. An update keeps the ids of the store pairwise distinct when the
    records of its crawl have pairwise distinct ids: the walker keeps
    the crawled ids apart from the stored ones, and nothing but a
    repeated id within one crawl can put an id in the store twice. *)
Theorem update_keeps_ids_distinct product pages config w new_data wc n w' :
  PRODUCTS !! product = Some config ->
  crawl (new_crawler config) (pages * 10)
        (Some (ids_of (store_lines config w))) w = (Ret new_data, wc) ->
  NoDup (id <$> new_data) ->
  NoDup (id <$> store_lines config w) ->
  update_data product pages w = (Ret n, w') ->
  NoDup (id <$> store_lines config w').
Proof.
  intros Hp Hc Hnew Hold Hu.
  pose proof (update_data_returned product pages config w n w' Hp Hu)
    as Hr.
  destruct (update_data_spec product pages config w Hp Hr)
    as (new_data' & reqs & Hc' & _ & _ & Hall & _ & Heq).
  rewrite Hc in Hc'. inversion Hc'; subst new_data' wc. clear Hc'.
  rewrite Heq in Hu. destruct new_data as [|r new_data].
  - inversion Hu; subst. exact Hold.
  - inversion Hu; subst.
    rewrite store_lines_store_written.
    rewrite sort_by_Permutation, fmap_app.
    unfold existing_data. rewrite id_reread.
    apply NoDup_app. split; [exact Hold|]. split; [|exact Hnew].
    intros i Hi Hi2.
    apply list_elem_of_fmap in Hi2 as (r' & -> & Hr').
    rewrite Forall_forall in Hall.
    apply (ids_of_not_elem r' _ (Hall r' Hr')), Hi.
Qed.

Lemma update_keeps_ids_distinct_witness :
  NoDup (id <$> store_lines POWER_655_CONFIG
                  (update_data "655" 3 Scenarios.scenario_B).2).
Proof.
  apply (update_keeps_ids_distinct "655" 3 POWER_655_CONFIG
           Scenarios.scenario_B
           [{| date := "2026-01-15"; id := "101";
               result := Numbers [5; 12; 23; 34; 45; 50]%Z;
               process_time := "2026-01-15T08:00:00" |}]
           (add_sent [request_for (new_crawler POWER_655_CONFIG) "";
                      request_for (new_crawler POWER_655_CONFIG) "100"]
              Scenarios.scenario_B)
           1%Z).
  - reflexivity.
  - reflexivity.
  - apply (bool_decide_unpack _). vm_compute. exact I.
  - apply (bool_decide_unpack _). vm_compute. exact I.
  - destruct (update_data "655" 3 Scenarios.scenario_B) eqn:Hu.
    vm_compute in Hu. inversion Hu. reflexivity.
Defined.

(** X11. An update leaves alone every file but the store of its product,
    and the remote and the clock; it opens a file for writing once at
    most, and then it is that store. An unknown product raises before
    anything is read or sent. *)
Theorem update_frame product pages w res w' :
  update_data product pages w = (res, w') ->
  site w' = site w /\ clock w' = clock w
  /\ match PRODUCTS !! product with
     | Some config =>
         (forall path, path <> data_file config ->
                       files w' !! path = files w !! path)
         /\ (writes w' = writes w
             \/ writes w' = (writes w ++ [data_file config])%list)
     | None => (exists e, res = Raise e) /\ w' = w
     end.
Proof.
  intros Hu.
  destruct (PRODUCTS !! product) as [config|] eqn:Hp.
  - destruct (update_data_cases product pages config w Hp)
      as [[_ He]|Hr].
    { rewrite He in Hu. inversion Hu; subst. repeat split; auto. }
    destruct (update_data_spec product pages config w Hp Hr)
      as (new_data & reqs & _ & _ & _ & _ & _ & Heq).
    rewrite Heq in Hu.
    destruct new_data as [|r new_data]; inversion Hu; subst; simpl.
    + repeat split; auto.
    + repeat split; auto.
      intros path Hpath. apply lookup_insert_ne. congruence.
  - unfold update_data in Hu. rewrite Hp in Hu. inversion Hu; subst.
    repeat split; eauto.
Qed.

Lemma update_frame_witness :
  site (update_data "655" 3 Scenarios.scenario_B).2
  = site Scenarios.scenario_B
  /\ clock (update_data "655" 3 Scenarios.scenario_B).2
     = clock Scenarios.scenario_B
  /\ match PRODUCTS !! "655" with
     | Some config =>
         (forall path, path <> data_file config ->
            files (update_data "655" 3 Scenarios.scenario_B).2 !! path
            = files Scenarios.scenario_B !! path)
         /\ (writes (update_data "655" 3 Scenarios.scenario_B).2
             = writes Scenarios.scenario_B
             \/ writes (update_data "655" 3 Scenarios.scenario_B).2
                = (writes Scenarios.scenario_B ++ [data_file config])%list)
     | None =>
         (exists e, (update_data "655" 3 Scenarios.scenario_B).1 = Raise e)
         /\ (update_data "655" 3 Scenarios.scenario_B).2
            = Scenarios.scenario_B
     end.
Proof.
  apply (update_frame "655" 3 Scenarios.scenario_B
           (update_data "655" 3 Scenarios.scenario_B).1
           (update_data "655" 3 Scenarios.scenario_B).2).
  destruct (update_data "655" 3 Scenarios.scenario_B). reflexivity.
Defined.

Lemma line_key_reread w lines :
  line_key <$> reread w lines = line_key <$> lines.
Proof. apply fmap_imap_keep. reflexivity. Qed.

(** X12. An update drops no stored line: the date and id of every line
    of the store are those of a line of the store after. When polars
    reads the lines back as they were written, every line of the store
    is a line of the store after, unaltered; and when the store was
    also in ascending order of date, its lines keep their order, the new
    ones going in between or after. *)
Theorem update_keeps_stored_lines product pages config w res w' :
  PRODUCTS !! product = Some config ->
  update_data product pages w = (res, w') ->
  (line_key <$> store_lines config w) ⊆+ (line_key <$> store_lines config w')
  /\ (reads_unchanged config w ->
      store_lines config w ⊆+ store_lines config w'
      /\ (StronglySorted date_le (store_lines config w) ->
          store_lines config w `sublist_of` store_lines config w')).
Proof.
  intros Hp Hu.
  destruct (update_data_cases product pages config w Hp) as [[_ He]|Hr].
  { rewrite He in Hu. inversion Hu; subst. repeat split; reflexivity. }
  destruct (update_data_spec product pages config w Hp Hr)
    as (new_data & reqs & _ & _ & _ & _ & _ & Heq).
  rewrite Heq in Hu.
  destruct new_data as [|r new_data]; inversion Hu; subst.
  - repeat split; reflexivity.
  - rewrite store_lines_store_written. split.
    + rewrite sort_by_Permutation, fmap_app.
      unfold existing_data. rewrite line_key_reread.
      apply submseteq_inserts_r. reflexivity.
    + intros Hsame. unfold existing_data. rewrite Hsame. split.
      * rewrite sort_by_Permutation. apply submseteq_inserts_r. reflexivity.
      * intros Hs. apply (sort_by_sorted_prefix date). exact Hs.
Qed.

Lemma update_keeps_stored_lines_witness :
  (line_key <$> store_lines POWER_655_CONFIG Scenarios.scenario_B)
  ⊆+ (line_key <$> store_lines POWER_655_CONFIG
                     (update_data "655" 3 Scenarios.scenario_B).2)
  /\ (reads_unchanged POWER_655_CONFIG Scenarios.scenario_B ->
      store_lines POWER_655_CONFIG Scenarios.scenario_B
      ⊆+ store_lines POWER_655_CONFIG
           (update_data "655" 3 Scenarios.scenario_B).2
      /\ (StronglySorted date_le
            (store_lines POWER_655_CONFIG Scenarios.scenario_B) ->
          store_lines POWER_655_CONFIG Scenarios.scenario_B
          `sublist_of` store_lines POWER_655_CONFIG
                         (update_data "655" 3 Scenarios.scenario_B).2)).
Proof.
  apply (update_keeps_stored_lines "655" 3 POWER_655_CONFIG
           Scenarios.scenario_B
           (update_data "655" 3 Scenarios.scenario_B).1).
  - reflexivity.
  - destruct (update_data "655" 3 Scenarios.scenario_B). reflexivity.
Defined.

(** X13. When the store holds lines that polars reads back as they were
    written, in ascending order of date, and no crawled draw is dated
    before a stored one, the update writes the old lines first,
    unchanged, followed by the new records in ascending order of
    date. *)
Theorem update_appends_later_draws product pages config w new_data wc :
  PRODUCTS !! product = Some config ->
  readable config w ->
  reads_unchanged config w ->
  crawl (new_crawler config) (pages * 10)
        (Some (ids_of (store_lines config w))) w = (Ret new_data, wc) ->
  new_data <> [] ->
  StronglySorted date_le (store_lines config w) ->
  Forall (fun a => Forall (fun b => date_le a b) new_data)
         (store_lines config w) ->
  store_lines config (update_data product pages w).2
  = (store_lines config w ++ sort_by date new_data)%list.
Proof.
  intros Hp Hr Hsame Hc Hne Hs Hlater.
  destruct (update_data_spec product pages config w Hp Hr)
    as (new_data' & reqs & Hc' & _ & _ & _ & _ & Heq).
  rewrite Hc in Hc'. inversion Hc'; subst new_data' wc. clear Hc'.
  rewrite Heq. destruct new_data as [|r new_data]; [congruence|].
  cbn [snd]. rewrite store_lines_store_written.
  unfold existing_data. rewrite Hsame.
  apply (sort_by_app_sorted date); assumption.
Qed.

Lemma update_appends_later_draws_witness :
  store_lines POWER_655_CONFIG (update_data "655" 3 Scenarios.scenario_B).2
  = (store_lines POWER_655_CONFIG Scenarios.scenario_B
     ++ sort_by date
          [{| date := "2026-01-15"; id := "101";
              result := Numbers [5; 12; 23; 34; 45; 50]%Z;
              process_time := "2026-01-15T08:00:00" |}])%list.
Proof.
  apply (update_appends_later_draws "655" 3 POWER_655_CONFIG
           Scenarios.scenario_B _
           (add_sent [request_for (new_crawler POWER_655_CONFIG) "";
                      request_for (new_crawler POWER_655_CONFIG) "100"]
              Scenarios.scenario_B)).
  - reflexivity.
  - vm_compute. discriminate.
  - reflexivity.
  - reflexivity.
  - discriminate.
  - vm_compute. repeat constructor.
  - vm_compute. repeat constructor.
Defined.

(* ================================================================== *)
(** ** The driver *)
(* ================================================================== *)

Lemma empty_file_iff w path :
  empty_file w path = true <-> files w !! path = Some [].
Proof.
  unfold empty_file. destruct (files w !! path) as [[|r l]|];
    split; intros H; solve [reflexivity | discriminate].
Qed.

(** What one update of a product of the table does to the world: it may
    raise, on a store without a line; it never makes or fills such a
    store. *)
Lemma update_data_effect product pages config w :
  PRODUCTS !! product = Some config ->
  exists res w' reqs,
    update_data product pages w = (res, w')
    /\ site w' = site w /\ clock w' = clock w
    /\ sent w' = (sent w ++ reqs)%list
    /\ (length reqs <= range_len (pages * 10))%nat
    /\ (forall path, path <> data_file config ->
                     files w' !! path = files w !! path)
    /\ (forall cfg i, i ∈ ids_of (store_lines cfg w) ->
                      i ∈ ids_of (store_lines cfg w'))
    /\ (forall path, files w' !! path = Some [] <-> files w !! path = Some []).
Proof.
  intros Hp.
  destruct (update_data_cases product pages config w Hp) as [[_ He]|Hr].
  { exists (Raise empty_store_error), w, []. rewrite app_nil_r.
    split; [exact He|]. repeat split; auto. simpl. lia. }
  destruct (update_data_spec product pages config w Hp Hr)
    as (new_data & reqs & _ & _ & Hn & _ & _ & Heq).
  destruct new_data as [|r new_data].
  - exists (Ret 0%Z), (add_sent reqs w), reqs.
    repeat split; try assumption; auto.
  - eexists _, _, reqs. split; [exact Heq|].
    unfold store_written. simpl.
    repeat split; try assumption.
    + intros path Hpath. apply lookup_insert_ne. congruence.
    + intros cfg i Hi. unfold store_lines in *. simpl.
      destruct (decide (data_file config = data_file cfg)) as [He|He].
      * rewrite <- He in *. rewrite lookup_insert_eq. simpl.
        unfold ids_of in *. apply elem_of_list_to_set.
        apply elem_of_list_to_set in Hi.
        rewrite sort_by_Permutation, fmap_app.
        unfold existing_data, store_lines. rewrite id_reread.
        apply elem_of_app. left. exact Hi.
      * rewrite lookup_insert_ne by exact He. exact Hi.
    + destruct (decide (path = data_file config)) as [->|Hne].
      * rewrite lookup_insert_eq. intros H. exfalso.
        inversion H as [H1]. apply (f_equal length) in H1.
        rewrite length_sort_by, length_app in H1. simpl in H1. lia.
      * rewrite lookup_insert_ne by congruence. auto.
    + destruct (decide (path = data_file config)) as [->|Hne].
      * intros H. exfalso. apply Hr, H.
      * rewrite lookup_insert_ne by congruence. auto.
Qed.

Lemma settled_first_new config w n :
  settled config w ->
  first_new (new_crawler config) (ids_of (store_lines config w)) n "" w
  = None.
Proof.
  unfold settled, first_new. destruct n; [reflexivity|].
  destruct (fetched (new_crawler config) "" w) as [[r|]|e];
    try reflexivity.
  simpl. intros H. rewrite bool_decide_eq_true_2 by exact H. reflexivity.
Qed.

(** A store that is up to date stays so whatever update runs next. *)
Lemma settled_preserved config w w' :
  unchanging w -> site w' = site w ->
  (forall i, i ∈ ids_of (store_lines config w) ->
             i ∈ ids_of (store_lines config w')) ->
  settled config w -> settled config w'.
Proof.
  intros Hun Hsite Hids. unfold settled.
  rewrite (fetched_id_unchanging _ _ w w' Hun Hsite).
  destruct (parsed_id _); auto.
Qed.

(** An update with a budget leaves the store of its product up to date,
    unless the store is a file without a line. *)
Lemma update_settles product pages config w res w' :
  PRODUCTS !! product = Some config ->
  unchanging w -> (0 < pages)%Z ->
  update_data product pages w = (res, w') ->
  settled config w' \/ files w' !! data_file config = Some [].
Proof.
  intros Hp Hun Hpages Hu.
  destruct (update_data_cases product pages config w Hp) as [[Hf He]|Hr].
  { rewrite He in Hu. inversion Hu; subst. right. exact Hf. }
  left.
  destruct (update_data_spec product pages config w Hp Hr)
    as (new_data & reqs & _ & _ & _ & _ & Hhd & Heq).
  rewrite Heq in Hu. unfold settled.
  assert (Hbudget : exists k, range_len (pages * 10) = S k).
  { unfold range_len. exists (Z.to_nat (pages * 10) - 1)%nat. lia. }
  destruct Hbudget as [k Hk]. rewrite Hk in Hhd.
  destruct new_data as [|r0 rest]; inversion Hu; subst; clear Hu.
  - rewrite (fetched_id_unchanging _ _ w); [|exact Hun|reflexivity].
    simpl in Hhd. unfold first_new in Hhd.
    destruct (fetched (new_crawler config) "" w) as [[r|]|e]; simpl;
      try exact I.
    case_bool_decide; [assumption|discriminate].
  - rewrite (fetched_id_unchanging _ _ w); [|exact Hun|reflexivity].
    rewrite (first_new_Some _ _ _ _ _ _ (eq_sym Hhd)).
    apply elem_of_ids_of. rewrite store_lines_store_written.
    rewrite sort_by_Permutation. apply elem_of_app. right. left.
Qed.

(** An update of a store that can be read and is up to date returns 0
    and writes nothing. *)
Lemma update_settled product pages config w :
  PRODUCTS !! product = Some config ->
  readable config w ->
  settled config w ->
  exists reqs,
    update_data product pages w = (Ret 0%Z, add_sent reqs w).
Proof.
  intros Hp Hr Hs.
  destruct (update_data_spec product pages config w Hp Hr)
    as (new_data & reqs & _ & _ & _ & _ & Hhd & Heq).
  rewrite (settled_first_new config w _ Hs) in Hhd.
  destruct new_data; [|discriminate]. eauto.
Qed.

(** One turn of the loop: whatever the update comes to, a line is
    logged and the loop goes on. *)
Lemma main_loop_known product rest config w res w1 :
  PRODUCTS !! product = Some config ->
  update_data product 5 w = (res, w1) ->
  main_loop (product :: rest) w
  = match main_loop rest w1 with
    | (Ret lines, w2) => (Ret (logged_line config res :: lines), w2)
    | (Raise e, w2) => (Raise e, w2)
    end.
Proof.
  intros Hp Hu. cbn [main_loop]. rewrite Hp.
  unfold ebind at 1. unfold try_eff. unfold ebind at 1. rewrite Hu.
  destruct res as [n|e]; unfold ret at 1; unfold ebind;
    destruct (main_loop rest w1) as [[lines|e'] w2]; reflexivity.
Qed.

(** The loop of the driver over any list of product keys. *)
Lemma main_loop_spec products :
  forall w,
  exists lines w' reqs,
    main_loop products w = (Ret lines, w')
    /\ (length lines <= length products)%nat
    /\ site w' = site w /\ clock w' = clock w
    /\ sent w' = (sent w ++ reqs)%list
    /\ (length reqs <= 50 * length lines)%nat
    /\ (forall path,
          (forall product config,
              product ∈ products -> PRODUCTS !! product = Some config ->
              path <> data_file config) ->
          files w' !! path = files w !! path)
    /\ (forall cfg i, i ∈ ids_of (store_lines cfg w) ->
                      i ∈ ids_of (store_lines cfg w'))
    /\ (forall path, files w' !! path = Some [] <-> files w !! path = Some [])
    /\ (unchanging w ->
        forall product config,
          product ∈ products -> PRODUCTS !! product = Some config ->
          settled config w' \/ files w' !! data_file config = Some []).
Proof.
  induction products as [|product rest IH]; intros w.
  - exists [], w, []. simpl. unfold ret. rewrite app_nil_r.
    repeat split; auto. intros _ p c Hin. inversion Hin.
  - destruct (PRODUCTS !! product) as [config|] eqn:Hp.
    + destruct (update_data_effect product 5 config w Hp)
        as (res & w1 & reqs1 & Hu & Hsite1 & Hclock1 & Hsent1 & Hlen1
            & Hfiles1 & Hids1 & Hempty1).
      destruct (IH w1)
        as (lines & w2 & reqs2 & Hm & Hlines & Hsite2 & Hclock2 & Hsent2
            & Hlen2 & Hfiles2 & Hids2 & Hempty2 & Hset2).
      rewrite (main_loop_known product rest config w res w1 Hp Hu), Hm.
      eexists _, w2, (reqs1 ++ reqs2)%list.
      split; [reflexivity|]. simpl.
      split; [lia|]. split; [congruence|]. split; [congruence|].
      split; [rewrite Hsent2, Hsent1, app_assoc; reflexivity|].
      split; [rewrite length_app; unfold range_len in Hlen1; simpl in Hlen1;
              lia|].
      split; [|split; [|split]].
      * intros path Hpath. rewrite Hfiles2, Hfiles1; [reflexivity| |].
        -- apply (Hpath product config); [left|exact Hp].
        -- intros p c Hin Hc. apply (Hpath p c); [right; exact Hin|exact Hc].
      * intros cfg i Hi. apply Hids2, Hids1, Hi.
      * intros path. rewrite Hempty2. apply Hempty1.
      * intros Hun p c Hin Hc.
        assert (Hun1 : unchanging w1).
        { unfold unchanging. rewrite Hsite1. exact Hun. }
        apply elem_of_cons in Hin as [->|Hin].
        -- rewrite Hp in Hc. inversion Hc; subst c.
           destruct (update_settles product 5 config w _ w1 Hp Hun
                       ltac:(lia) Hu) as [Hs|He].
           ++ left.
              apply (settled_preserved config w1 w2 Hun1 Hsite2
                       (Hids2 config) Hs).
           ++ right. apply Hempty2, He.
        -- apply (Hset2 Hun1 p c Hin Hc).
    + cbn [main_loop]. rewrite Hp.
      destruct (IH w)
        as (lines & w2 & reqs2 & Hm & Hlines & Hsite2 & Hclock2 & Hsent2
            & Hlen2 & Hfiles2 & Hids2 & Hempty2 & Hset2).
      exists lines, w2, reqs2. split; [exact Hm|]. simpl.
      split; [lia|]. repeat split; try assumption; try apply Hempty2.
      * intros path Hpath. apply Hfiles2.
        intros p c Hin Hc. apply (Hpath p c); [right; exact Hin|exact Hc].
      * intros Hun p c Hin Hc.
        apply elem_of_cons in Hin as [->|Hin]; [congruence|].
        apply (Hset2 Hun p c Hin Hc).
Qed.

Lemma logged_name_line config res :
  logged_name (logged_line config res) = name config.
Proof. destruct res as [n|e]; simpl; [destruct (0 <? n)%Z|]; reflexivity. Qed.

Lemma main_loop_names products :
  forall w lines w',
  main_loop products w = (Ret lines, w') ->
  logged_name <$> lines = name <$> known_products products.
Proof.
  induction products as [|product rest IH]; intros w lines w' Hm.
  - inversion Hm. reflexivity.
  - unfold known_products. cbn [omap list_omap].
    destruct (PRODUCTS !! product) as [config|] eqn:Hp.
    + destruct (update_data_effect product 5 config w Hp)
        as (res & w1 & reqs1 & Hu & _).
      rewrite (main_loop_known product rest config w res w1 Hp Hu) in Hm.
      destruct (main_loop rest w1) as [[lines'|e] w2] eqn:Hrest;
        [|discriminate].
      inversion Hm; subst. cbn [fmap list_fmap]. f_equal.
      * apply logged_name_line.
      * apply (IH w1 lines' w' Hrest).
    + cbn [main_loop] in Hm. rewrite Hp in Hm. apply (IH w lines w' Hm).
Qed.

(** X14. [main] returns whatever the remote does: no failure of one
    product stops the others. It logs one line for each of its five
    products, in order, sends fifty requests per product at most, 250 in
    all, and leaves the remote and the clock as they were. *)
Theorem main_returns w :
  exists lines w' reqs,
    main w = (Ret lines, w')
    /\ logged_name <$> lines
       = ["power_655"; "power_645"; "max_3d"; "max_3d_pro"; "lotto_535"]
    /\ sent w' = (sent w ++ reqs)%list
    /\ (length reqs <= 250)%nat
    /\ site w' = site w /\ clock w' = clock w.
Proof.
  unfold main.
  destruct (main_loop_spec ["655"; "645"; "3d"; "3dpro"; "535"] w)
    as (lines & w' & reqs & Hm & _ & Hsite & Hclock & Hsent & Hlen & _).
  exists lines, w', reqs.
  pose proof (main_loop_names _ _ _ _ Hm) as Hnames.
  assert (Hfive : length lines = 5%nat).
  { rewrite <- (length_fmap logged_name), Hnames. reflexivity. }
  split; [exact Hm|]. split; [exact Hnames|].
  split; [exact Hsent|]. split; [lia|]. auto.
Qed.

(** X15. [main] touches no file but the five stores it updates: any
    other path, the Keno store among them, holds after [main] what it
    held before. *)
Theorem main_frame w path :
  path ∉ data_file <$> [POWER_655_CONFIG; POWER_645_CONFIG; MAX3D_CONFIG;
                        MAX3D_PRO_CONFIG; LOTTO_535_CONFIG] ->
  files (main w).2 !! path = files w !! path.
Proof.
  intros Hpath. unfold main.
  destruct (main_loop_spec ["655"; "645"; "3d"; "3dpro"; "535"] w)
    as (lines & w' & reqs & Hm & _ & _ & _ & _ & _ & Hfiles & _).
  rewrite Hm. simpl. apply Hfiles.
  intros product config Hin Hc Heq. apply Hpath. subst path.
  repeat (apply elem_of_cons in Hin as [->|Hin];
          [vm_compute in Hc; inversion Hc; subst config;
           apply (bool_decide_unpack _); vm_compute; exact I|]).
  inversion Hin.
Qed.

Lemma main_frame_witness :
  files (main Scenarios.scenario_B).2 !! data_file KENO_CONFIG
  = files Scenarios.scenario_B !! data_file KENO_CONFIG.
Proof.
  apply (main_frame Scenarios.scenario_B (data_file KENO_CONFIG)).
  apply (bool_decide_unpack _). vm_compute. exact I.
Defined.

(** When the store of each product of the list is up to date, or is a
    file without a line, the loop logs each as up to date, or as failed
    on the store without a line, and writes nothing. *)
Lemma main_loop_settled products :
  forall w,
  unchanging w ->
  (forall product config,
      product ∈ products -> PRODUCTS !! product = Some config ->
      settled config w \/ files w !! data_file config = Some []) ->
  exists reqs,
    main_loop products w
    = (Ret (second_run_line w <$> known_products products),
       add_sent reqs w).
Proof.
  induction products as [|product rest IH]; intros w Hun Hset.
  - exists []. rewrite add_sent_nil. reflexivity.
  - unfold known_products. cbn [omap list_omap].
    destruct (PRODUCTS !! product) as [config|] eqn:Hp.
    + cbn [fmap list_fmap]. unfold second_run_line at 1.
      destruct (empty_file w (data_file config)) eqn:He.
      * apply empty_file_iff in He.
        rewrite (main_loop_known product rest config w _ w Hp
                   (update_data_empty product 5 config w Hp He)).
        destruct (IH w Hun) as [reqs2 Hrest].
        { intros p c Hin Hc. apply (Hset p c); [right; exact Hin|exact Hc]. }
        rewrite Hrest. exists reqs2. reflexivity.
      * assert (Hr : readable config w).
        { unfold readable. intros Hf. apply empty_file_iff in Hf.
          congruence. }
        assert (Hs : settled config w).
        { destruct (Hset product config ltac:(left) Hp) as [Hs|Hf];
            [exact Hs|]. exfalso. apply Hr, Hf. }
        destruct (update_settled product 5 config w Hp Hr Hs)
          as [reqs1 Hu].
        rewrite (main_loop_known product rest config w _ _ Hp Hu).
        destruct (IH (add_sent reqs1 w)) as [reqs2 Hrest].
        -- unfold unchanging. simpl. exact Hun.
        -- intros p c Hin Hc.
           destruct (Hset p c ltac:(right; exact Hin) Hc) as [Hs'|Hf].
           ++ left. apply (settled_preserved c w (add_sent reqs1 w) Hun);
                [reflexivity|auto|exact Hs'].
           ++ right. exact Hf.
        -- rewrite Hrest. exists (reqs1 ++ reqs2)%list.
           rewrite add_sent_app. reflexivity.
    + cbn [main_loop]. rewrite Hp. apply IH; [exact Hun|].
      intros p c Hin Hc. apply (Hset p c); [right; exact Hin|exact Hc].
Qed.

(** X16. Against a remote without memory, a second [main] finds nothing
    to add: it logs every product whose store can be read as up to
    date, and every product whose store is a file without a line as
    failed, with the error of reading such a file; it leaves every file
    as the first run left it, opening none for writing. *)
Theorem main_idempotent w res w1 :
  unchanging w ->
  main w = (res, w1) ->
  exists w2,
    main w1
    = (Ret (second_run_line w1
              <$> [POWER_655_CONFIG; POWER_645_CONFIG; MAX3D_CONFIG;
                   MAX3D_PRO_CONFIG; LOTTO_535_CONFIG]), w2)
    /\ files w2 = files w1
    /\ writes w2 = writes w1.
Proof.
  intros Hun Hm1. unfold main in *.
  destruct (main_loop_spec ["655"; "645"; "3d"; "3dpro"; "535"] w)
    as (lines & w' & reqs & Hm & _ & Hsite & _ & _ & _ & _ & _ & _ & Hset).
  rewrite Hm in Hm1. inversion Hm1; subst res w1. clear Hm1.
  assert (Hun' : unchanging w').
  { unfold unchanging. rewrite Hsite. exact Hun. }
  destruct (main_loop_settled ["655"; "645"; "3d"; "3dpro"; "535"] w' Hun'
              (Hset Hun)) as [reqs2 Hm2].
  exists (add_sent reqs2 w'). split; [exact Hm2|]. auto.
Qed.

Lemma main_idempotent_witness :
  exists w2,
    main (main Scenarios.scenario_B).2
    = (Ret (second_run_line (main Scenarios.scenario_B).2
              <$> [POWER_655_CONFIG; POWER_645_CONFIG; MAX3D_CONFIG;
                   MAX3D_PRO_CONFIG; LOTTO_535_CONFIG]), w2)
    /\ files w2 = files (main Scenarios.scenario_B).2
    /\ writes w2 = writes (main Scenarios.scenario_B).2.
Proof.
  apply (main_idempotent Scenarios.scenario_B
           (main Scenarios.scenario_B).1).
  - intros served served' req. reflexivity.
  - destruct (main Scenarios.scenario_B). reflexivity.
Defined.

(* ================================================================== *)
(** ** Endpoint and return value *)
(* ================================================================== *)

(** X17. Whatever the configuration, the crawler posts to a result-detail
    endpoint: the configured url when it is one, else the endpoint of
    the short code, else that of Power 6/45. *)
Theorem endpoint_is_result_detail config :
  contains "ResultDetail" (endpoint (new_crawler config)) = true.
Proof.
  unfold new_crawler. cbn [endpoint].
  destruct (contains "ResultDetail" (url config)) eqn:Hurl; [exact Hurl|].
  destruct (ENDPOINTS !! sms_code config) as [v|] eqn:Hv; simpl;
    [|reflexivity].
  unfold ENDPOINTS in Hv. apply elem_of_list_to_map_2 in Hv.
  repeat (apply elem_of_cons in Hv as [Hv|Hv];
          [inversion Hv; subst; reflexivity|]).
  inversion Hv.
Qed.

(** X18. For a product of the table, [update_data] raises only on a
    store that is a file without a line, and then the world is what it
    was. The number it returns otherwise is never negative, and it is
    positive exactly when the store has been rewritten: on 0 the files
    are what they were and none has been opened; on a positive number
    the store of the product, and it alone, has been opened for writing,
    once, and holds that many lines more. *)
Theorem update_positive_iff_written product pages config w res w' :
  PRODUCTS !! product = Some config ->
  update_data product pages w = (res, w') ->
  match res with
  | Ret n =>
      (0 <= n)%Z
      /\ (n = 0%Z -> files w' = files w /\ writes w' = writes w)
      /\ ((0 < n)%Z ->
          writes w' = (writes w ++ [data_file config])%list
          /\ len (store_lines config w')
             = (len (store_lines config w) + n)%Z)
  | Raise e =>
      e = empty_store_error
      /\ files w !! data_file config = Some [] /\ w' = w
  end.
Proof.
  intros Hp Hu.
  destruct (update_data_cases product pages config w Hp) as [[Hf He]|Hr].
  { rewrite He in Hu. inversion Hu; subst. auto. }
  destruct (update_data_spec product pages config w Hp Hr)
    as (new_data & reqs & _ & _ & _ & _ & _ & Heq).
  rewrite Heq in Hu.
  destruct new_data as [|r new_data]; inversion Hu; subst; clear Hu.
  - split; [lia|]. split; [auto|lia].
  - unfold len. cbn [length]. split; [lia|]. split; [lia|].
    intros _. split; [reflexivity|].
    rewrite store_lines_store_written, length_sort_by, length_app.
    unfold existing_data. rewrite length_reread.
    cbn [length]. lia.
Qed.

Lemma update_positive_iff_written_witness :
  (0 <= 1)%Z
  /\ (1%Z = 0%Z ->
      files (update_data "655" 3 Scenarios.scenario_B).2
      = files Scenarios.scenario_B
      /\ writes (update_data "655" 3 Scenarios.scenario_B).2
         = writes Scenarios.scenario_B)
  /\ ((0 < 1)%Z ->
      writes (update_data "655" 3 Scenarios.scenario_B).2
      = (writes Scenarios.scenario_B ++ [data_file POWER_655_CONFIG])%list
      /\ len (store_lines POWER_655_CONFIG
                (update_data "655" 3 Scenarios.scenario_B).2)
         = (len (store_lines POWER_655_CONFIG Scenarios.scenario_B) + 1)%Z).
Proof.
  apply (update_positive_iff_written "655" 3 POWER_655_CONFIG
           Scenarios.scenario_B (Ret 1%Z)
           (update_data "655" 3 Scenarios.scenario_B).2).
  - reflexivity.
  - destruct (update_data "655" 3 Scenarios.scenario_B) eqn:Hu.
    vm_compute in Hu. inversion Hu. reflexivity.
Defined.

(* ================================================================== *)
(** ** A crawl that is cut short *)
(* ================================================================== *)

Lemma crawl_loop_stop self existing_ids n :
  forall m draw_id all_data w,
  (m < n)%nat ->
  chain_then_stop self existing_ids m draw_id w = true ->
  exists out w',
    crawl_loop self existing_ids n draw_id all_data w
    = (Ret (all_data ++ out)%list, w')
    /\ length out = m.
Proof.
  induction n as [|n IH]; intros m draw_id all_data w Hlt Hchain; [lia|].
  cbn [crawl_loop]. unfold ebind at 1.
  destruct m as [|k]; cbn [chain_then_stop] in Hchain.
  - destruct (fetch_draw self draw_id w) as [[[r|]|e] w1] eqn:Hf.
    + rewrite Hchain. exists [], w1. rewrite app_nil_r. auto.
    + exists [], w1. rewrite app_nil_r. auto.
    + pose proof (fetch_draw_returns self draw_id w) as [r Hr].
      rewrite Hf in Hr. discriminate.
  - destruct (fetch_draw self draw_id w) as [[[r|]|e] w1];
      try discriminate.
    apply andb_true_iff in Hchain as [Hnew Hrest].
    apply negb_true_iff in Hnew. rewrite Hnew.
    cbn [pop_prev_draw_id].
    destruct (pd_prev_draw_id r) as [prev|]; [|discriminate].
    apply andb_true_iff in Hrest as [Hne Hrest]. rewrite Hne.
    destruct (IH k prev (all_data ++ [(pop_prev_draw_id r).2])%list w1
                ltac:(lia) Hrest) as (out & w' & Heq & Hlen).
    exists ((pop_prev_draw_id r).2 :: out), w'.
    cbn [pop_prev_draw_id snd] in *. rewrite Heq, <- app_assoc.
    simpl. auto.
Qed.

(** X19. A crawl that is cut short keeps what it has fetched. When the
    store can be read (the file is absent or holds a line), [m] new
    draws come in, link after link, and the next fetch fails, comes back
    empty or reaches a known draw, with budget left, [update_data]
    returns [m] and the store gains [m] lines: a failure part of the way
    costs the rest of the session, not the records before it. *)
Theorem update_keeps_fetched_prefix product pages config w m :
  PRODUCTS !! product = Some config ->
  readable config w ->
  chain_then_stop (new_crawler config) (ids_of (store_lines config w))
    m "" w = true ->
  (Z.of_nat m < pages * 10)%Z ->
  exists w',
    update_data product pages w = (Ret (Z.of_nat m), w')
    /\ len (store_lines config w')
       = (len (store_lines config w) + Z.of_nat m)%Z.
Proof.
  intros Hp Hr Hchain Hbudget.
  destruct (update_data_spec product pages config w Hp Hr)
    as (new_data & reqs & Hc & _ & _ & _ & _ & Heq).
  destruct (crawl_loop_stop (new_crawler config)
              (ids_of (store_lines config w)) (range_len (pages * 10))
              m "" [] w ltac:(unfold range_len; lia) Hchain)
    as (out & w1 & Hloop & Hlen).
  unfold crawl in Hc. simpl in Hc, Hloop. rewrite Hc in Hloop.
  inversion Hloop; subst out w1. clear Hloop.
  rewrite Heq. subst m. destruct new_data as [|r new_data].
  - exists (add_sent reqs w). split; [reflexivity|].
    unfold store_lines, len. simpl. lia.
  - eexists. split; [reflexivity|].
    rewrite store_lines_store_written. unfold len.
    rewrite length_sort_by, length_app.
    unfold existing_data. rewrite length_reread. lia.
Qed.

Lemma update_keeps_fetched_prefix_witness :
  exists w',
    update_data "655" 3 Scenarios.scenario_gap = (Ret 2%Z, w')
    /\ len (store_lines POWER_655_CONFIG w')
       = (len (store_lines POWER_655_CONFIG Scenarios.scenario_gap) + 2)%Z.
Proof.
  apply (update_keeps_fetched_prefix "655" 3 POWER_655_CONFIG
           Scenarios.scenario_gap 2).
  - reflexivity.
  - vm_compute. discriminate.
  - vm_compute. reflexivity.
  - lia.
Defined.

(* ================================================================== *)
(** ** The order of the store *)
(* ================================================================== *)

(** On dates of the ISO shape, ascending as text is ascending by day. *)
Lemma date_le_day_le (l : list DrawRecord) :
  StronglySorted date_le l ->
  Forall (fun r => is_iso_date (date r) = true) l ->
  StronglySorted day_le l.
Proof.
  induction 1 as [|a l Hs IH Ha]; intros Hiso; [constructor|].
  inversion Hiso as [|? ? Hia Hil]; subst.
  constructor; [apply IH, Hil|].
  rewrite Forall_forall in *. intros b Hb.
  unfold day_le. apply iso_leb_day_number;
    [exact Hia|apply Hil, Hb|apply Ha, Hb].
Qed.

(** C3, as the code has it. After a call to [update_data] that writes
    the store, the lines of the store are in ascending order of their
    date texts, compared as [str], from the first to the last, lines of
    the same date allowed. When every date of the store has the shape
    yyyy-mm-dd, the lines are in ascending order of the days they name,
    again with lines of the same day allowed. *)
Theorem update_store_ascending product pages w res w' :
  update_data product pages w = (res, w') ->
  writes w' <> writes w ->
  exists config,
    PRODUCTS !! product = Some config
    /\ StronglySorted date_le (store_lines config w')
    /\ (Forall (fun r => is_iso_date (date r) = true)
               (store_lines config w') ->
        StronglySorted day_le (store_lines config w')).
Proof.
  intros Hu Hw.
  destruct (PRODUCTS !! product) as [config|] eqn:Hp.
  - exists config. split; [reflexivity|].
    assert (Hs : StronglySorted date_le (store_lines config w')).
    { destruct (update_data_cases product pages config w Hp)
        as [[_ He]|Hr].
      { rewrite He in Hu. inversion Hu; subst. congruence. }
      destruct (update_data_spec product pages config w Hp Hr)
        as (new_data & reqs & _ & _ & _ & _ & _ & Heq).
      rewrite Heq in Hu. destruct new_data as [|r new_data].
      - inversion Hu; subst. simpl in Hw. congruence.
      - inversion Hu; subst. rewrite store_lines_store_written.
        apply sort_by_date_sorted. }
    split; [exact Hs|]. apply date_le_day_le, Hs.
  - unfold update_data in Hu. rewrite Hp in Hu.
    inversion Hu; subst. congruence.
Qed.

(** Scenario B writes the store. *)
Lemma update_store_ascending_witness :
  exists config,
    PRODUCTS !! "655" = Some config
    /\ StronglySorted date_le
         (store_lines config (update_data "655" 3 Scenarios.scenario_B).2)
    /\ (Forall (fun r => is_iso_date (date r) = true)
               (store_lines config
                  (update_data "655" 3 Scenarios.scenario_B).2) ->
        StronglySorted day_le
          (store_lines config (update_data "655" 3 Scenarios.scenario_B).2)).
Proof.
  apply (update_store_ascending "655" 3 Scenarios.scenario_B
           (update_data "655" 3 Scenarios.scenario_B).1
           (update_data "655" 3 Scenarios.scenario_B).2).
  - destruct (update_data "655" 3 Scenarios.scenario_B). reflexivity.
  - vm_compute. discriminate.
Defined.

(** C3 as stated fails: Keno draws several times a day. With no store
    yet and two draws of the same day on the remote, [update_data]
    writes two lines that share their date. *)
Lemma update_same_day_not_strict :
  let '(res, w') := update_data "keno" 1 Scenarios.scenario_keno in
  res = Ret 2%Z
  /\ writes w' = [data_file KENO_CONFIG]
  /\ date <$> store_lines KENO_CONFIG w' = ["2026-01-15"; "2026-01-15"]
  /\ ~ Sorted date_lt (store_lines KENO_CONFIG w').
Proof.
  vm_compute. repeat split.
  intros H. inversion H as [|a l _ Hhd]; subst.
  inversion Hhd as [|b l' Hlt]; subst.
  vm_compute in Hlt. discriminate.
Qed.

(** The order is that of the texts, not of the days, when a year has
    fewer than four digits. A draw whose header is dated 01/01/0999 gets
    the date 999-01-01, and [update_data] writes it after the line of 9
    January 2026, a day more than a thousand years later. *)
Lemma update_year_999_after_2026 :
  let '(res, w') := update_data "655" 3 Scenarios.scenario_year_999 in
  res = Ret 1%Z
  /\ writes w' = [data_file POWER_655_CONFIG]
  /\ date <$> store_lines POWER_655_CONFIG w' = ["2026-01-09"; "999-01-01"]
  /\ (let d1 := {| year := 2026; month := 1; day := 9 |} in
      let d2 := {| year := 999; month := 1; day := 1 |} in
      strptime "09/01/2026" = Ret d1 /\ strftime d1 = "2026-01-09"
      /\ strptime "01/01/0999" = Ret d2 /\ strftime d2 = "999-01-01"
      /\ (day_number d2 < day_number d1)%Z).
Proof.
  vm_compute. repeat split.
Qed.
